(** * Restaurant order management: a shallow embedding of the core logic

    The development follows the Python sources of the [restaurant] Django
    application:

    - [restaurant/patterns/singleton/config_manager.py] (modules [Config]
      and [ConfigFile]),
    - [restaurant/patterns/observer/observers.py]       (modules [Observers]
      and [Suscripciones]),
    - [restaurant/models.py]                            (module [Models]),
    - [restaurant/forms.py]                             (modules [Forms] and
      [Formularios]),
    - [restaurant/views.py] and
      [restaurant/patterns/decorator/view_decorators.py] (modules [Views] and
      [VistaCrear]).

    Python values keep their dynamic types: the configuration holds [float]
    rates, the database hands out [Decimal] amounts, and the arithmetic
    between the two is Python's, including the operations it refuses. *)

From Stdlib Require Import ZArith QArith.
From Stdlib Require Import Floats.PrimFloat Floats.FloatOps Floats.SpecFloat.
From stdpp Require Import gmap strings list.

Set Warnings "-inexact-float".
Local Open Scope Z_scope.

(* ===================================================================== *)
(** * Python values, exceptions and arithmetic                            *)
(* ===================================================================== *)

Module Py.

(** Exception classes that occur in the sources (or that the interpreter
    raises on their operations).  [KeyboardInterrupt] and [SystemExit] derive
    from [BaseException] only; all others derive from [Exception]. *)
Inductive PyExc : Type :=
| TypeError
| OverflowError
| KeyError (key : string)
| AttributeError (name : string)
| ValidationError (msg : string)
| ValueError
| OtherException (name : string)
| KeyboardInterrupt
| SystemExit.

(** [isinstance(e, Exception)]: what an [except Exception] clause catches. *)
Definition is_Exception (e : PyExc) : bool :=
  match e with
  | KeyboardInterrupt | SystemExit => false
  | _ => true
  end.

(** The outcome of a Python call: a value, or a raised exception. *)
Inductive Res (A : Type) : Type :=
| Ok (a : A)
| Raise (e : PyExc).
Arguments Ok {A} a.
Arguments Raise {A} e.

(** Sequencing stops at the first exception ([x ← r; k] below). *)
#[global] Instance Res_bind : MBind Res := λ A B k r,
  match r with
  | Ok a => k a
  | Raise e => Raise e
  end.

(** ** [decimal.Decimal]

    A finite decimal is [dec_coef × 10 ^ dec_exp].  The sign is carried by the
    coefficient, so [-0] and [0] are one value; NaN and the infinities are not
    [DecimalField] values and are left out.  Arithmetic is done under the
    default context: 28 significant digits, rounding half to even (the exponent
    limits ±999999 are not modelled). *)
Record Decimal : Type := mkDecimal { dec_coef : Z; dec_exp : Z }.

Definition context_prec : Z := 28.

Fixpoint ndigits_aux (fuel : nat) (n : Z) : Z :=
  match fuel with
  | O => 1
  | S fuel' => if n <? 10 then 1 else 1 + ndigits_aux fuel' (n / 10)
  end.

(** Number of decimal digits of the coefficient ([len(str(abs n))]). *)
Definition ndigits (n : Z) : Z :=
  ndigits_aux (Z.to_nat (Z.log2 (Z.abs n))) (Z.abs n).

(** Round [n / 10^k] half to even, for [n >= 0]. *)
Definition round_half_even (n k : Z) : Z :=
  let p := 10 ^ k in
  let q := n / p in
  let r := n mod p in
  if 2 * r <? p then q
  else if 2 * r =? p then (if Z.even q then q else q + 1)
  else q + 1.

(** [Decimal._fix]: round the result of an operation to the context
    precision. *)
Definition dec_fix (d : Decimal) : Decimal :=
  let n := ndigits (dec_coef d) in
  if n <=? context_prec then d
  else
    let k := n - context_prec in
    let q := round_half_even (Z.abs (dec_coef d)) k in
    let '(q, e) := if q =? 10 ^ context_prec
                   then (10 ^ (context_prec - 1), dec_exp d + k + 1)
                   else (q, dec_exp d + k) in
    mkDecimal (Z.sgn (dec_coef d) * q) e.

Definition Decimal_of_int (n : Z) : Decimal := mkDecimal n 0.

Definition dec_add (a b : Decimal) : Decimal :=
  let e := Z.min (dec_exp a) (dec_exp b) in
  dec_fix (mkDecimal (dec_coef a * 10 ^ (dec_exp a - e)
                      + dec_coef b * 10 ^ (dec_exp b - e)) e).

Definition dec_mul (a b : Decimal) : Decimal :=
  dec_fix (mkDecimal (dec_coef a * dec_coef b) (dec_exp a + dec_exp b)).

(** The rational number a decimal denotes. *)
Definition dec_value (d : Decimal) : Q :=
  (inject_Z (dec_coef d) * Qpower (10 # 1) (dec_exp d))%Q.

(** ** [float]: IEEE 754 binary64, the kernel's primitive floats. *)

Inductive ExtQ : Type := QNaN | QNegInf | QFin (q : Q) | QPosInf.

(** The exact value of a float. *)
Definition float_value (f : float) : ExtQ :=
  match Prim2SF f with
  | S754_zero _ => QFin 0
  | S754_infinity s => if s then QNegInf else QPosInf
  | S754_nan => QNaN
  | S754_finite s m e =>
      QFin (inject_Z (if s then Z.neg m else Z.pos m) * Qpower (2 # 1) e)%Q
  end.

(** [float(n)] for an [int]: the nearest double, ties to even;
    [OverflowError] when [n] is too large. *)
Definition float_of_int (n : Z) : Res float :=
  match binary_normalize 53 1024 n 0 false with
  | S754_infinity _ => Raise OverflowError
  | sf => Ok (SF2Prim sf)
  end.

(** ** Values *)

Inductive PyVal : Type :=
| VBool (b : bool)
| VInt (n : Z)
| VFloat (f : float)
| VDecimal (d : Decimal)
| VStr (s : string).

(** The numeric types: [bool] is a subclass of [int]. *)
Inductive Num : Type :=
| NInt (n : Z)
| NFloat (f : float)
| NDec (d : Decimal).

Definition as_num (v : PyVal) : option Num :=
  match v with
  | VBool b => Some (NInt (Z.b2z b))
  | VInt n => Some (NInt n)
  | VFloat f => Some (NFloat f)
  | VDecimal d => Some (NDec d)
  | VStr _ => None
  end.

Definition as_int (v : PyVal) : option Z :=
  match v with
  | VBool b => Some (Z.b2z b)
  | VInt n => Some n
  | _ => None
  end.

(** [Decimal] accepts [int] operands and refuses [float] ones
    ("unsupported operand type(s) for *: 'decimal.Decimal' and 'float'"). *)
Definition num_mul (a b : Num) : Res PyVal :=
  match a, b with
  | NInt x, NInt y => Ok (VInt (x * y))
  | NInt x, NFloat g => f ← float_of_int x; Ok (VFloat (PrimFloat.mul f g))
  | NFloat f, NInt y => g ← float_of_int y; Ok (VFloat (PrimFloat.mul f g))
  | NFloat f, NFloat g => Ok (VFloat (PrimFloat.mul f g))
  | NInt x, NDec d => Ok (VDecimal (dec_mul (Decimal_of_int x) d))
  | NDec c, NInt y => Ok (VDecimal (dec_mul c (Decimal_of_int y)))
  | NDec c, NDec d => Ok (VDecimal (dec_mul c d))
  | NDec _, NFloat _ | NFloat _, NDec _ => Raise TypeError
  end.

Definition num_add (a b : Num) : Res PyVal :=
  match a, b with
  | NInt x, NInt y => Ok (VInt (x + y))
  | NInt x, NFloat g => f ← float_of_int x; Ok (VFloat (PrimFloat.add f g))
  | NFloat f, NInt y => g ← float_of_int y; Ok (VFloat (PrimFloat.add f g))
  | NFloat f, NFloat g => Ok (VFloat (PrimFloat.add f g))
  | NInt x, NDec d => Ok (VDecimal (dec_add (Decimal_of_int x) d))
  | NDec c, NInt y => Ok (VDecimal (dec_add c (Decimal_of_int y)))
  | NDec c, NDec d => Ok (VDecimal (dec_add c d))
  | NDec _, NFloat _ | NFloat _, NDec _ => Raise TypeError
  end.

Fixpoint str_repeat (s : string) (n : nat) : string :=
  match n with
  | O => EmptyString
  | S n' => String.append s (str_repeat s n')
  end.

(** [a * b] *)
Definition py_mul (a b : PyVal) : Res PyVal :=
  match as_num a, as_num b with
  | Some x, Some y => num_mul x y
  | _, _ =>
      match a, as_int b, as_int a, b with
      | VStr s, Some n, _, _ => Ok (VStr (str_repeat s (Z.to_nat n)))
      | _, _, Some n, VStr s => Ok (VStr (str_repeat s (Z.to_nat n)))
      | _, _, _, _ => Raise TypeError
      end
  end.

(** [a + b] *)
Definition py_add (a b : PyVal) : Res PyVal :=
  match as_num a, as_num b with
  | Some x, Some y => num_add x y
  | _, _ =>
      match a, b with
      | VStr s, VStr t => Ok (VStr (String.append s t))
      | _, _ => Raise TypeError
      end
  end.

(** [sum(xs)]: starts from the [int] 0 and adds from the left. *)
Fixpoint py_sum_from (acc : PyVal) (xs : list PyVal) : Res PyVal :=
  match xs with
  | [] => Ok acc
  | x :: xs' => acc' ← py_add acc x; py_sum_from acc' xs'
  end.

Definition py_sum (xs : list PyVal) : Res PyVal := py_sum_from (VInt 0) xs.

(** Comparisons of a value with an [int] literal.  Numbers of different
    types are compared by their exact values; NaN compares false; a string
    against a number raises [TypeError]. *)
Definition num_value (x : Num) : ExtQ :=
  match x with
  | NInt n => QFin (inject_Z n)
  | NFloat f => float_value f
  | NDec d => QFin (dec_value d)
  end.

Definition extq_le (a b : ExtQ) : bool :=
  match a, b with
  | QNaN, _ | _, QNaN => false
  | QNegInf, _ => true
  | _, QPosInf => true
  | QFin x, QFin y => Qle_bool x y
  | _, _ => false
  end.

(** [n <= v] *)
Definition int_le (n : Z) (v : PyVal) : Res bool :=
  match as_num v with
  | Some x => Ok (extq_le (QFin (inject_Z n)) (num_value x))
  | None => Raise TypeError
  end.

(** [v <= n] *)
Definition le_int (v : PyVal) (n : Z) : Res bool :=
  match as_num v with
  | Some x => Ok (extq_le (num_value x) (QFin (inject_Z n)))
  | None => Raise TypeError
  end.

(** [v > n] *)
Definition gt_int (v : PyVal) (n : Z) : Res bool :=
  match as_num v with
  | Some x =>
      Ok (match num_value x with
          | QNaN => false
          | y => negb (extq_le y (QFin (inject_Z n)))
          end)
  | None => Raise TypeError
  end.

(** A number whose exact value lies in the closed interval [0, 1]. *)
Definition in_unit_interval (v : PyVal) : Prop :=
  ∃ x q, as_num v = Some x ∧ num_value x = QFin q ∧ (0 <= q)%Q ∧ (q <= 1)%Q.

(** The chained comparison [lo <= v <= hi]. *)
Definition between (lo : Z) (v : PyVal) (hi : Z) : Res bool :=
  match int_le lo v with
  | Ok true => le_int v hi
  | Ok false => Ok false
  | Raise e => Raise e
  end.

End Py.

(* ===================================================================== *)
(** * The configuration holder ([RestaurantConfig], a Singleton)          *)
(* ===================================================================== *)

Module Config.
Import Py.

Abbreviation PyDict := (gmap string PyVal).

(** Objects live in a heap and are referred to by location, so that two
    names for one object are told apart from two equal objects. *)
Abbreviation loc := nat.

Inductive Obj : Type :=
| Instance (_config : option loc)
    (** a [RestaurantConfig] object; its attribute [_config] is set by
        [__init__] and refers to a dictionary *)
| Dict (d : PyDict).

(** The class attributes [_instance] and [_initialized], and the heap. *)
Record State : Type := mkState {
  _instance : option loc;
  _initialized : bool;
  heap : gmap loc Obj
}.

Definition set_heap (h : gmap loc Obj) (st : State) : State :=
  mkState (_instance st) (_initialized st) h.

(** The state of a process in which the class was never called. *)
Definition process_start : State := mkState None false ∅.

Definition default_config : PyDict :=
  list_to_map
    [ ("nombre_restaurante", VStr "Restaurante Code & Taste");
      ("direccion", VStr "Av. Universidad #123, Chihuahua, Chih.");
      ("telefono", VStr "614-123-4567");
      ("horario", VStr "9:00 AM - 11:00 PM");
      ("impuesto", VFloat 0.16);
      ("propina_sugerida", VFloat 0.15);
      ("moneda", VStr "MXN");
      ("mesas_activas", VBool true);
      ("tiempo_max_espera", VInt 45);
      ("email", VStr "contacto@codeandtaste.com");
      ("capacidad_maxima", VInt 80) ].

(** [__new__]: create the instance only when [_instance] is [None]. *)
Definition __new__ (st : State) : loc * State :=
  match _instance st with
  | None =>
      let l := fresh (dom (heap st)) in
      (l, mkState (Some l) (_initialized st) (<[l := Instance None]> (heap st)))
  | Some l => (l, st)
  end.

(** [self._config], [AttributeError] when [__init__] never set it. *)
Definition get_config_attr (self : loc) (st : State) : Res loc :=
  match heap st !! self with
  | Some (Instance (Some d)) => Ok d
  | _ => Raise (AttributeError "_config")
  end.

Definition read_dict (d : loc) (st : State) : Res PyDict :=
  match heap st !! d with
  | Some (Dict m) => Ok m
  | _ => Raise TypeError
  end.

(** [_load_from_file].  [file] is what [restaurant_config.json] contributes:
    [None] when the file is absent, [Some pairs] for the pairs [json.load]
    yields (string and numeric fields).  Every exception is caught inside. *)
Definition _load_from_file (self : loc) (file : option PyDict) (st : State) : State :=
  match file with
  | None => st
  | Some file_config =>
      match get_config_attr self st with
      | Ok d =>
          match read_dict d st with
          | Ok m => set_heap (<[d := Dict (file_config ∪ m)]> (heap st)) st
          | Raise _ => st
          end
      | Raise _ => st
      end
  end.

(** [__init__]: runs on every call of the class, initialises only once. *)
Definition __init__ (self : loc) (file : option PyDict) (st : State) : State :=
  if _initialized st then st
  else
    let d := fresh (dom (heap st)) in
    let st1 := set_heap (<[self := Instance (Some d)]>
                           (<[d := Dict default_config]> (heap st))) st in
    let st2 := _load_from_file self file st1 in
    mkState (_instance st2) true (heap st2).

(** The call [RestaurantConfig()]. *)
Definition RestaurantConfig (file : option PyDict) (st : State) : loc * State :=
  let '(self, st1) := __new__ st in
  (self, __init__ self file st1).

(** [self._config[key]] *)
Definition getitem (self : loc) (key : string) (st : State) : Res PyVal :=
  d ← get_config_attr self st;
  m ← read_dict d st;
  match m !! key with
  | Some v => Ok v
  | None => Raise (KeyError key)
  end.

Definition get_nombre_restaurante := λ self, getitem self "nombre_restaurante".
Definition get_horario := λ self, getitem self "horario".
Definition get_impuesto := λ self, getitem self "impuesto".
Definition get_propina_sugerida := λ self, getitem self "propina_sugerida".
Definition get_capacidad_maxima := λ self, getitem self "capacidad_maxima".

(** [self._config[key] = v] *)
Definition setitem (self : loc) (key : string) (v : PyVal) (st : State)
  : Res unit * State :=
  match get_config_attr self st with
  | Ok d =>
      match read_dict d st with
      | Ok m => (Ok (), set_heap (<[d := Dict (<[key := v]> m)]> (heap st)) st)
      | Raise e => (Raise e, st)
      end
  | Raise e => (Raise e, st)
  end.

(** What a validating setter prints: the confirmation or the error line. *)
Inductive SetterOutcome : Type := Updated | Rejected.

Definition guarded_set (guard : Res bool) (self : loc) (key : string)
    (v : PyVal) (st : State) : Res SetterOutcome * State :=
  match guard with
  | Ok true =>
      match setitem self key v st with
      | (Ok _, st') => (Ok Updated, st')
      | (Raise e, st') => (Raise e, st')
      end
  | Ok false => (Ok Rejected, st)
  | Raise e => (Raise e, st)
  end.

(** [set_impuesto]: [if 0 <= impuesto <= 1: ... else: print(error)] *)
Definition set_impuesto (self : loc) (impuesto : PyVal) (st : State) :=
  guarded_set (between 0 impuesto 1) self "impuesto" impuesto st.

Definition set_propina_sugerida (self : loc) (propina : PyVal) (st : State) :=
  guarded_set (between 0 propina 1) self "propina_sugerida" propina st.

Definition set_capacidad_maxima (self : loc) (capacidad : PyVal) (st : State) :=
  guarded_set (gt_int capacidad 0) self "capacidad_maxima" capacidad st.

Definition set_nombre_restaurante (self : loc) (nombre : PyVal) (st : State) :=
  setitem self "nombre_restaurante" nombre st.

Definition set_horario (self : loc) (horario : PyVal) (st : State) :=
  setitem self "horario" horario st.

(** [get_all_config]: [return self._config.copy()], a new dictionary object
    with the same pairs. *)
Definition get_all_config (self : loc) (st : State) : Res loc * State :=
  match get_config_attr self st with
  | Ok d =>
      match read_dict d st with
      | Ok m =>
          let l := fresh (dom (heap st)) in
          (Ok l, set_heap (<[l := Dict m]> (heap st)) st)
      | Raise e => (Raise e, st)
      end
  | Raise e => (Raise e, st)
  end.

(** What a caller can do to a dictionary it holds. *)
Inductive DictOp : Type :=
| SetItem (key : string) (v : PyVal)   (** [d[key] = v] *)
| DelItem (key : string)               (** [del d[key]], [d.pop(key, None)] *)
| Update (other : PyDict)              (** [d.update(other)] *)
| Clear.                               (** [d.clear()] *)

Definition dict_apply (op : DictOp) (m : PyDict) : PyDict :=
  match op with
  | SetItem k v => <[k := v]> m
  | DelItem k => delete k m
  | Update other => other ∪ m
  | Clear => ∅
  end.

Definition mutate (l : loc) (op : DictOp) (st : State) : State :=
  match heap st !! l with
  | Some (Dict m) => set_heap (<[l := Dict (dict_apply op m)]> (heap st)) st
  | _ => st
  end.

Definition mutate_all (l : loc) (ops : list DictOp) (st : State) : State :=
  foldl (λ s op, mutate l op s) st ops.

(** The pairs the holder stores, as seen through the instance [self]. *)
Definition stored (self : loc) (st : State) : Res PyDict :=
  d ← get_config_attr self st; read_dict d st.

(** [self] is an initialised holder whose dictionary holds the pairs [m]. *)
Definition holds (st : State) (self : loc) (m : PyDict) : Prop :=
  ∃ d, heap st !! self = Some (Instance (Some d)) ∧ heap st !! d = Some (Dict m).

(** The invariant of the class: an existing instance is a heap object, and
    once initialised its [_config] refers to a dictionary. *)
Definition wf (st : State) : Prop :=
  match _instance st with
  | None => _initialized st = false
  | Some self =>
      if _initialized st
      then ∃ d m, heap st !! self = Some (Instance (Some d))
                  ∧ heap st !! d = Some (Dict m)
      else ∃ c, heap st !! self = Some (Instance c)
  end.

End Config.

(* ===================================================================== *)
(** * The models ([restaurant/models.py])                                 *)
(* ===================================================================== *)

Module Models.
Import Py.

(** A dish.  [precio] is a [DecimalField]. *)
Record Platillo : Type := mkPlatillo {
  platillo_pk : Z;
  nombre : string;
  precio : Decimal;
  disponible : bool
}.

(** An order object.  The three amounts hold whatever Python value was last
    assigned to them; [mesa] stands for the number of the related table. *)
Record Pedido : Type := mkPedido {
  pk : Z;
  mesa : Z;
  estado : string;
  subtotal : PyVal;
  impuesto : PyVal;
  total : PyVal
}.

Definition ESTADOS : list (string * string) :=
  [ ("pendiente", "Pendiente");
    ("en_preparacion", "En Preparación");
    ("listo", "Listo");
    ("entregado", "Entregado");
    ("cancelado", "Cancelado") ].

(** A stored line item: a row of the [ItemPedido] table. *)
Record ItemRow : Type := mkItemRow {
  row_pk : Z;
  row_pedido : Z;
  row_platillo : Z;
  row_cantidad : Z;
  row_precio_unitario : Decimal;
  row_subtotal : Decimal;
  row_notas : string
}.

(** A line item object.  [item_pk] is [None] until the first save;
    [platillo_cache] is the related dish once it was assigned or fetched
    (Django keeps it on the instance); the two amounts are unset on an object
    that a form has just built. *)
Record ItemPedido : Type := mkItemPedido {
  item_pk : option Z;
  item_pedido : Z;
  platillo_id : Z;
  platillo_cache : option Platillo;
  cantidad : Z;
  precio_unitario : option Decimal;
  item_subtotal : option Decimal;
  notas : string
}.

(** The tables the core logic reads and writes. *)
Record DB : Type := mkDB {
  platillos : gmap Z Platillo;
  pedidos : gmap Z Pedido;
  items : list ItemRow
}.

(** A line printed or logged by the application. *)
Record Aviso : Type := mkAviso {
  origen : string;
  texto : string;
  sobre_pedido : Z
}.

(** Everything a request can reach: the configuration singleton and its
    file, the database, and the console. *)
Record World : Type := mkWorld {
  cfg : Config.State;
  config_file : option (gmap string PyVal);
  db : DB;
  consola : list Aviso
}.

Definition set_cfg (c : Config.State) (w : World) : World :=
  mkWorld c (config_file w) (db w) (consola w).
Definition set_db (d : DB) (w : World) : World :=
  mkWorld (cfg w) (config_file w) d (consola w).
Definition print (a : Aviso) (w : World) : World :=
  mkWorld (cfg w) (config_file w) (db w) (consola w ++ [a]).

(** ** [Pedido] *)

(** [Model.save] of an order: the row takes the object's fields.  (The
    storage layer is Django's; its two-decimal formatting of the stored copy
    is outside these sources.) *)
Definition save_pedido (self : Pedido) (d : DB) : DB :=
  mkDB (platillos d) (<[pk self := self]> (pedidos d)) (items d).

(** [self.items.all()] *)
Definition item_set (self : Pedido) (d : DB) : list ItemRow :=
  filter (λ r, row_pedido r = pk self) (items d).

Definition with_subtotal (v : PyVal) (p : Pedido) : Pedido :=
  mkPedido (pk p) (mesa p) (estado p) v (impuesto p) (total p).
Definition with_impuesto (v : PyVal) (p : Pedido) : Pedido :=
  mkPedido (pk p) (mesa p) (estado p) (subtotal p) v (total p).
Definition with_total (v : PyVal) (p : Pedido) : Pedido :=
  mkPedido (pk p) (mesa p) (estado p) (subtotal p) (impuesto p) v.
Definition with_estado (e : string) (p : Pedido) : Pedido :=
  mkPedido (pk p) (mesa p) e (subtotal p) (impuesto p) (total p).

(** [Pedido.calcular_totales].  The result carries the order object as the
    call leaves it, also when an exception interrupts the method. *)
Definition calcular_totales (self : Pedido) (w : World)
  : Res unit * Pedido * World :=
  let '(config, c1) := Config.RestaurantConfig (config_file w) (cfg w) in
  let w := set_cfg c1 w in
  match py_sum (map (λ item, VDecimal (row_subtotal item)) (item_set self (db w))) with
  | Raise e => (Raise e, self, w)
  | Ok s =>
      let self := with_subtotal s self in
      match Config.get_impuesto config (cfg w) with
      | Raise e => (Raise e, self, w)
      | Ok rate =>
          match py_mul (subtotal self) rate with
          | Raise e => (Raise e, self, w)
          | Ok i =>
              let self := with_impuesto i self in
              match py_add (subtotal self) (impuesto self) with
              | Raise e => (Raise e, self, w)
              | Ok t =>
                  let self := with_total t self in
                  (Ok (), self, set_db (save_pedido self (db w)) w)
              end
          end
      end
  end.

(** ** [ItemPedido] *)

(** [self.platillo]: the cached related object, else a query by key. *)
Definition get_platillo (self : ItemPedido) (d : DB) : Res Platillo :=
  match platillo_cache self with
  | Some p => Ok p
  | None =>
      match platillos d !! platillo_id self with
      | Some p => Ok p
      | None => Raise (OtherException "Platillo.DoesNotExist")
      end
  end.

Definition row_of (k : Z) (self : ItemPedido) (pu st : Decimal) : ItemRow :=
  mkItemRow k (item_pedido self) (platillo_id self) (cantidad self) pu st (notas self).

Definition next_pk (rows : list ItemRow) : Z :=
  1 + foldr (λ r m, Z.max (row_pk r) m) 0 rows.

(** The UPDATE of the rows whose key is [k]. *)
Definition update_row (k : Z) (x : ItemRow) (r : ItemRow) : ItemRow :=
  if decide (row_pk r = k) then x else r.

(** [super().save()]: INSERT under a new key for a new object; otherwise
    UPDATE of the row with the object's key, or INSERT under that key when
    the table has no such row. *)
Definition store_item (self : ItemPedido) (pu st : Decimal) (d : DB)
  : ItemPedido * DB :=
  match item_pk self with
  | None =>
      let k := next_pk (items d) in
      (mkItemPedido (Some k) (item_pedido self) (platillo_id self)
         (platillo_cache self) (cantidad self) (Some pu) (Some st) (notas self),
       mkDB (platillos d) (pedidos d) (items d ++ [row_of k self pu st]))
  | Some k =>
      if decide (Exists (λ r, row_pk r = k) (items d)) then
        (self,
         mkDB (platillos d) (pedidos d)
           (map (update_row k (row_of k self pu st)) (items d)))
      else
        (self, mkDB (platillos d) (pedidos d) (items d ++ [row_of k self pu st]))
  end.

(** [ItemPedido.save]:
    [self.precio_unitario = self.platillo.precio],
    [self.subtotal = self.cantidad * self.precio_unitario], then the stored
    row is written.  It runs the same on the first and on every later save. *)
Definition save (self : ItemPedido) (d : DB) : Res ItemPedido * DB :=
  match get_platillo self d with
  | Raise e => (Raise e, d)
  | Ok p =>
      let pu := precio p in
      let st := dec_mul (Decimal_of_int (cantidad self)) pu in
      let self := mkItemPedido (item_pk self) (item_pedido self) (platillo_id self)
                    (Some p) (cantidad self) (Some pu) (Some st) (notas self) in
      let '(self, d) := store_item self pu st d in
      (Ok self, d)
  end.




End Models.

(* ===================================================================== *)
(** * The notification fan-out ([patterns/observer/observers.py])         *)
(* ===================================================================== *)

Module Observers.
Import Py Models.

(** The payload dictionary [datos]: strings and numbers, a line item, a
    time stamp. *)
Inductive DatoVal : Type :=
| DVal (v : PyVal)
| DItem (item : ItemPedido)
| DTime (t : Z).

Abbreviation Datos := (gmap string DatoVal).

(** [datos[key]]; [datos] defaults to [None]. *)
Definition subscript (datos : option Datos) (key : string) : Res DatoVal :=
  match datos with
  | None => Raise TypeError
  | Some d =>
      match d !! key with
      | Some v => Ok v
      | None => Raise (KeyError key)
      end
  end.

(** The interface [Observer]: [actualizar(pedido, evento, datos)].  A
    listener may do anything to the world (database, console, the
    configuration) and may raise.  The order and the payload reach every
    listener as the same two objects; the listeners of the repository only
    read them, and a listener that would assign to them is not modelled. *)
Class Observer (O : Type) : Type := {
  actualizar : O → Pedido → string → option Datos → World → Res unit * World;
  class_name : O → string
}.

(** One invocation of [actualizar], as the subject makes it. *)
Record Llamada (O : Type) : Type := mkLlamada {
  a_observador : O;
  con_pedido : Pedido;
  con_evento : string;
  con_datos : option Datos
}.
Arguments mkLlamada {O}.
Arguments a_observador {O}.

(** What a notification did: how it ended, the world it left, the
    invocations it made in order, and the errors it logged. *)
Record Entrega (O : Type) : Type := mkEntrega {
  resultado : Res unit;
  mundo : World;
  llamadas : list (Llamada O);
  errores : list (O * PyExc)
}.
Arguments mkEntrega {O}.
Arguments resultado {O}.
Arguments mundo {O}.
Arguments llamadas {O}.
Arguments errores {O}.

Record PedidoSubject (O : Type) : Type := mkSubject {
  pedido : Pedido;
  _observadores : list O
}.
Arguments mkSubject {O}.
Arguments pedido {O}.
Arguments _observadores {O}.

Definition log (texto : string) (p : Pedido) (w : World) : World :=
  print (mkAviso "OBSERVER" texto (pk p)) w.

Section Subject.
Context {O : Type} `{EqDecision O} `{Observer O}.

(** [PedidoSubject(pedido)] *)
Definition nuevo_subject (p : Pedido) (w : World) : PedidoSubject O * World :=
  (mkSubject p [], log "PedidoSubject creado" p w).

(** [agregar_observador]: append unless already present. *)
Definition agregar_observador (observador : O) (self : PedidoSubject O) (w : World)
  : PedidoSubject O * World :=
  if decide (observador ∈ _observadores self) then (self, w)
  else (mkSubject (pedido self) (_observadores self ++ [observador]),
        log (class_name observador +:+ " suscrito") (pedido self)
          (log (class_name observador +:+ " agregado") (pedido self) w)).

(** [list.remove(x)]: drop the first element equal to [x]; [ValueError]
    when there is none. *)
Fixpoint list_remove (x : O) (l : list O) : Res (list O) :=
  match l with
  | [] => Raise ValueError
  | y :: l' =>
      if decide (y = x) then Ok l'
      else l'' ← list_remove x l'; Ok (y :: l'')
  end.

(** [quitar_observador]: remove when present. *)
Definition quitar_observador (observador : O) (self : PedidoSubject O) (w : World)
  : Res (PedidoSubject O) * World :=
  if decide (observador ∈ _observadores self) then
    match list_remove observador (_observadores self) with
    | Ok l => (Ok (mkSubject (pedido self) l),
               log (class_name observador +:+ " removido") (pedido self) w)
    | Raise e => (Raise e, w)
    end
  else (Ok self, w).

(** The loop of [notificar_observadores]:
    [try: observador.actualizar(self.pedido, evento, datos)]
    [except Exception as e: logger.error(...)]. *)
Fixpoint entregar (obs : list O) (p : Pedido) (evento : string)
    (datos : option Datos) (w : World) : Entrega O :=
  match obs with
  | [] => mkEntrega (Ok ()) w [] []
  | observador :: rest =>
      let llamada := mkLlamada observador p evento datos in
      match actualizar observador p evento datos w with
      | (Ok _, w') =>
          let r := entregar rest p evento datos w' in
          mkEntrega (resultado r) (mundo r) (llamada :: llamadas r) (errores r)
      | (Raise e, w') =>
          if is_Exception e then
            let w' := log ("Error al notificar " +:+ class_name observador) p w' in
            let r := entregar rest p evento datos w' in
            mkEntrega (resultado r) (mundo r) (llamada :: llamadas r)
              ((observador, e) :: errores r)
          else mkEntrega (Raise e) w' [llamada] []
      end
  end.

Definition notificar_observadores (self : PedidoSubject O) (evento : string)
    (datos : option Datos) (w : World) : Entrega O :=
  let w := log ("Notificando: " +:+ evento) (pedido self) w in
  let w := print (mkAviso "NOTIFICACION" evento (pk (pedido self))) w in
  let w := print (mkAviso "NOTIFICACION" "Notificando a observador(es)" (pk (pedido self))) w in
  entregar (_observadores self) (pedido self) evento datos w.

(** [cambiar_estado(nuevo_estado, usuario)]: assign, save, notify.
    [usuario] is the acting user's name when one is given; [ahora] is the
    clock reading. *)
Definition cambiar_estado (nuevo_estado : string) (usuario : option string)
    (ahora : Z) (self : PedidoSubject O) (w : World) : PedidoSubject O * Entrega O :=
  let estado_anterior := estado (pedido self) in
  let p := with_estado nuevo_estado (pedido self) in
  let self := mkSubject p (_observadores self) in
  let w := set_db (save_pedido p (db w)) w in
  let datos : Datos :=
    <["estado_anterior" := DVal (VStr estado_anterior)]>
    (<["estado_nuevo" := DVal (VStr nuevo_estado)]>
    (<["usuario" := DVal (VStr (default "Sistema" usuario))]>
    (<["timestamp" := DTime ahora]> ∅))) in
  let w := log (estado_anterior +:+ " -> " +:+ nuevo_estado) p w in
  (self, notificar_observadores self "cambio_estado" (Some datos) w).

(** [agregar_item(item, usuario)]: announce a new line item. *)
Definition agregar_item (item : ItemPedido) (usuario : option string)
    (ahora : Z) (self : PedidoSubject O) (w : World) : Res (Entrega O) :=
  p ← get_platillo item (db w);
  let datos : Datos :=
    <["item" := DItem item]>
    (<["platillo" := DVal (VStr (nombre p))]>
    (<["cantidad" := DVal (VInt (cantidad item))]>
    (<["usuario" := DVal (VStr (default "Sistema" usuario))]>
    (<["timestamp" := DTime ahora]> ∅)))) in
  let w := log ("Item agregado: " +:+ nombre p) (pedido self) w in
  Ok (notificar_observadores self "nuevo_item" (Some datos) w).

(** Registering a sequence of listeners on a subject, one call each. *)
Definition registrar (obs : list O) (sw : PedidoSubject O * World)
  : PedidoSubject O * World :=
  foldl (λ sw o, agregar_observador o sw.1 sw.2) sw obs.

End Subject.

(** ** The concrete listeners *)

Inductive Clase : Type :=
| CocinaObserver
| MeseroObserver
| AdministradorObserver
| NotificacionEmailObserver (email_destino : string).

(** A listener object: its identity and its class. *)
Record Observador : Type := mkObservador { oid : nat; clase : Clase }.

#[global] Instance Clase_eq_dec : EqDecision Clase.
Proof. solve_decision. Defined.
#[global] Instance Observador_eq_dec : EqDecision Observador.
Proof. solve_decision. Defined.

(** [datos['estado_nuevo'] == s] *)
Definition estado_nuevo_es (datos : option Datos) (s : string) : Res bool :=
  v ← subscript datos "estado_nuevo";
  Ok (match v with
      | DVal (VStr t) => bool_decide (t = s)
      | _ => false
      end).

(** [evento == 'cambio_estado' and datos['estado_nuevo'] == s] *)
Definition cambio_a (evento : string) (datos : option Datos) (s : string) : Res bool :=
  if decide (evento = "cambio_estado") then estado_nuevo_es datos s else Ok false.

(** [_mostrar_items_pedido]: one line per line item of the order. *)
Fixpoint mostrar_items (rows : list ItemRow) (p : Pedido) (w : World) : Res unit * World :=
  match rows with
  | [] => (Ok (), w)
  | r :: rows' =>
      match platillos (db w) !! row_platillo r with
      | Some pl => mostrar_items rows' p (print (mkAviso "COCINA" (nombre pl) (pk p)) w)
      | None => (Raise (OtherException "Platillo.DoesNotExist"), w)
      end
  end.

Definition avisar (quien texto : string) (p : Pedido) (w : World) : Res unit * World :=
  (Ok (), print (mkAviso quien texto (pk p)) (print (mkAviso quien texto (pk p)) w)).

Definition actualizar_cocina (p : Pedido) (evento : string)
    (datos : option Datos) (w : World) : Res unit * World :=
  match cambio_a evento datos "pendiente" with
  | Raise e => (Raise e, w)
  | Ok true =>
      let w := print (mkAviso "COCINA" "NUEVO PEDIDO" (pk p)) w in
      match mostrar_items (item_set p (db w)) p w with
      | (Ok _, w) => (Ok (), print (mkAviso "COCINA" "NUEVO PEDIDO" (pk p)) w)
      | (Raise e, w) => (Raise e, w)
      end
  | Ok false =>
      if decide (evento = "nuevo_item") then
        match subscript datos "cantidad", subscript datos "platillo" with
        | Ok _, Ok _ => avisar "COCINA" "ITEM AGREGADO" p w
        | Raise e, _ | _, Raise e => (Raise e, w)
        end
      else
        match cambio_a evento datos "cancelado" with
        | Raise e => (Raise e, w)
        | Ok true => avisar "COCINA" "PEDIDO CANCELADO" p w
        | Ok false => (Ok (), w)
        end
  end.

Definition actualizar_mesero (p : Pedido) (evento : string)
    (datos : option Datos) (w : World) : Res unit * World :=
  match cambio_a evento datos "listo" with
  | Raise e => (Raise e, w)
  | Ok true => avisar "MESERO" "PEDIDO LISTO" p w
  | Ok false =>
      match cambio_a evento datos "entregado" with
      | Raise e => (Raise e, w)
      | Ok true => avisar "MESERO" "PEDIDO ENTREGADO" p w
      | Ok false =>
          if decide (evento = "pedido_pagado") then
            match subscript datos "monto", subscript datos "metodo" with
            | Ok _, Ok _ => avisar "MESERO" "PAGO RECIBIDO" p w
            | Raise e, _ | _, Raise e => (Raise e, w)
            end
          else (Ok (), w)
      end
  end.

Definition actualizar_administrador (p : Pedido) (evento : string)
    (datos : option Datos) (w : World) : Res unit * World :=
  if decide (evento = "cambio_estado") then
    match subscript datos "estado_anterior", subscript datos "estado_nuevo" with
    | Ok _, Ok _ => avisar "ADMIN" "Estado" p w
    | Raise e, _ | _, Raise e => (Raise e, w)
    end
  else if decide (evento = "nuevo_item") then
    match subscript datos "cantidad", subscript datos "platillo" with
    | Ok _, Ok _ => avisar "ADMIN" "Nuevo item" p w
    | Raise e, _ | _, Raise e => (Raise e, w)
    end
  else if decide (evento = "pedido_pagado") then
    match subscript datos "monto", subscript datos "metodo" with
    | Ok _, Ok _ => avisar "ADMIN" "Pago" p w
    | Raise e, _ | _, Raise e => (Raise e, w)
    end
  else avisar "ADMIN" ("Evento: " +:+ evento) p w.

Definition actualizar_email (destino : string) (p : Pedido) (evento : string)
    (datos : option Datos) (w : World) : Res unit * World :=
  if decide (evento = "cambio_estado") then
    match subscript datos "estado_nuevo" with
    | Raise e => (Raise e, w)
    | Ok (DVal (VStr s)) =>
        if decide (s ∈ ["pedido_pagado"; "cancelado"])
        then avisar "EMAIL" ("Enviando email a " +:+ destino) p w
        else (Ok (), w)
    | Ok _ => (Ok (), w)
    end
  else (Ok (), w).

#[global] Instance Observador_Observer : Observer Observador := {
  actualizar o :=
    match clase o with
    | CocinaObserver => actualizar_cocina
    | MeseroObserver => actualizar_mesero
    | AdministradorObserver => actualizar_administrador
    | NotificacionEmailObserver destino => actualizar_email destino
    end;
  class_name o :=
    match clase o with
    | CocinaObserver => "CocinaObserver"
    | MeseroObserver => "MeseroObserver"
    | AdministradorObserver => "AdministradorObserver"
    | NotificacionEmailObserver _ => "NotificacionEmailObserver"
    end
}.

End Observers.

(* ===================================================================== *)
(** * The line-item form ([restaurant/forms.py])                          *)
(* ===================================================================== *)

Module Forms.
Import Py Models.

(** [ItemPedidoForm.clean_cantidad]:
    [if cantidad and (cantidad < 1 or cantidad > 50): raise ValidationError].
    [cantidad] is [cleaned_data.get('cantidad')]: an [int], or [None].  The
    test [cantidad and ...] is on the truth value of the number: [None] and
    [0] are both false. *)
Definition clean_cantidad (cantidad : option Z) : Res (option Z) :=
  match cantidad with
  | None => Ok None
  | Some n =>
      if negb (n =? 0) && ((n <? 1) || (n >? 50))
      then Raise (ValidationError "La cantidad debe estar entre 1 y 50")
      else Ok (Some n)
  end.

(** [ItemPedidoForm.clean_platillo] *)
Definition clean_platillo (platillo : option Platillo) : Res (option Platillo) :=
  match platillo with
  | Some p =>
      if negb (disponible p)
      then Raise (ValidationError "El platillo no está disponible actualmente")
      else Ok (Some p)
  | None => Ok None
  end.

(** The submitted fields, as the form fields decode them: the key of a
    dish, an integer, a text; [None] when a value is missing or malformed. *)
Record ItemPedidoData : Type := mkItemPedidoData {
  data_platillo : option Z;
  data_cantidad : option Z;
  data_notas : string
}.

Record CleanedData : Type := mkCleanedData {
  cleaned_platillo : Platillo;
  cleaned_cantidad : Z;
  cleaned_notas : string
}.

(** The field [platillo]: a choice among
    [Platillo.objects.filter(disponible=True)], then [clean_platillo]. *)
Definition field_platillo (data : ItemPedidoData) (d : DB) : Res Platillo :=
  match data_platillo data with
  | None => Raise (ValidationError "required")
  | Some k =>
      match platillos d !! k with
      | Some p =>
          if disponible p then
            r ← clean_platillo (Some p);
            match r with
            | Some p => Ok p
            | None => Raise (ValidationError "required")
            end
          else Raise (ValidationError "invalid_choice")
      | None => Raise (ValidationError "invalid_choice")
      end
  end.

(** The field [cantidad]: a required integer, then [clean_cantidad]. *)
Definition field_cantidad (data : ItemPedidoData) : Res Z :=
  match data_cantidad data with
  | None => Raise (ValidationError "required")
  | Some n =>
      r ← clean_cantidad (Some n);
      match r with
      | Some n => Ok n
      | None => Raise (ValidationError "required")
      end
  end.

(** [form.is_valid()]: the cleaned data, or the field errors. *)
Definition full_clean (data : ItemPedidoData) (d : DB)
  : CleanedData + list (string * PyExc) :=
  match field_platillo data d, field_cantidad data with
  | Ok p, Ok n => inl (mkCleanedData p n (data_notas data))
  | Raise e, Ok _ => inr [("platillo", e)]
  | Ok _, Raise e => inr [("cantidad", e)]
  | Raise e1, Raise e2 => inr [("platillo", e1); ("cantidad", e2)]
  end.

(** [form.save(commit=False)]: an unsaved line item built from the data. *)
Definition form_instance (c : CleanedData) : ItemPedido :=
  mkItemPedido None 0 (platillo_pk (cleaned_platillo c))
    (Some (cleaned_platillo c)) (cleaned_cantidad c) None None (cleaned_notas c).

End Forms.

(* ===================================================================== *)
(** * The views ([restaurant/views.py]) and their decorators              *)
(* ===================================================================== *)

Module Views.
Import Py Models Observers Forms.

Record User : Type := mkUser {
  username : string;
  is_authenticated : bool;
  groups : list string
}.

Record Request : Type := mkRequest {
  method : string;
  POST_estado : option string;      (** [request.POST.get('estado')] *)
  POST_item : ItemPedidoData;
  user : User
}.

Inductive Response : Type :=
| Redirect (to : string)
| Render (template : string)
| Http404
| ServerError (e : PyExc).         (** an exception no handler caught *)

Inductive Nivel : Type := Success | Error.

(** What a request produced: the response, the flash messages, the world. *)
Record Salida : Type := mkSalida {
  respuesta : Response;
  mensajes : list (Nivel * string);
  despues : World
}.

Definition View : Type := Request → World → Salida.

(** ** [patterns/decorator/view_decorators.py] *)

Definition login_required (view : View) : View := λ request w,
  if is_authenticated (user request) then view request w
  else mkSalida (Redirect "login") [] w.

Definition log_view_access (view_name : string) (view : View) : View := λ request w,
  let w := print (mkAviso "DECORATOR LOG" view_name 0)
             (print (mkAviso "DECORATOR LOG" view_name 0) w) in
  view request w.

Definition require_role (roles : list string) (view_name : string) (view : View) : View :=
  login_required (λ request w,
    let user_groups := groups (user request) in
    let has_permission := existsb (λ role, bool_decide (role ∈ user_groups)) roles in
    if negb has_permission then
      mkSalida (Redirect "restaurant:dashboard")
        [(Error, "No tienes permisos para acceder a esta sección")]
        (print (mkAviso "DECORATOR" ("Acceso denegado: " +:+ view_name) 0) w)
    else
      view request (print (mkAviso "DECORATOR" ("Acceso autorizado: " +:+ view_name) 0) w)).

(** ** [cambiar_estado_pedido] *)

(** [dict(Pedido.ESTADOS)[key]] *)
Definition etiqueta (key : string) : option string :=
  snd <$> (snd <$> list_find (λ kv, kv.1 = key) ESTADOS).

(** [nuevo_estado in dict(Pedido.ESTADOS).keys()] *)
Definition estado_valido (nuevo_estado : option string) : bool :=
  match nuevo_estado with
  | Some s => bool_decide (s ∈ ESTADOS.*1)
  | None => false
  end.

(** The body of the view; [un_pk] is the key in the URL, [ahora] the clock. *)
Definition cambiar_estado_pedido_body (un_pk : Z) (ahora : Z) : View := λ request w,
  match pedidos (db w) !! un_pk with
  | None => mkSalida Http404 [] w
  | Some pedido =>
      if decide (method request = "POST") then
        match POST_estado request with
        | Some nuevo_estado =>
            if estado_valido (Some nuevo_estado) then
              let '(pedido_subject, w) := nuevo_subject pedido w in
              let '(pedido_subject, w) :=
                agregar_observador (mkObservador 1 CocinaObserver) pedido_subject w in
              let '(pedido_subject, w) :=
                agregar_observador (mkObservador 2 MeseroObserver) pedido_subject w in
              let '(pedido_subject, w) :=
                agregar_observador (mkObservador 3 AdministradorObserver) pedido_subject w in
              let '(pedido_subject, r) :=
                cambiar_estado nuevo_estado (Some (username (user request))) ahora
                  pedido_subject w in
              match resultado r with
              | Ok _ =>
                  mkSalida (Redirect "restaurant:detalle_pedido")
                    [(Success, "Estado del pedido actualizado a: "
                               +:+ default "" (etiqueta nuevo_estado))]
                    (print (mkAviso "VIEW" ("Estado cambiado a: " +:+ nuevo_estado) un_pk)
                       (mundo r))
              | Raise e => mkSalida (ServerError e) [] (mundo r)
              end
            else
              mkSalida (Redirect "restaurant:detalle_pedido") [(Error, "Estado inválido")] w
        | None =>
            mkSalida (Redirect "restaurant:detalle_pedido") [(Error, "Estado inválido")] w
        end
      else mkSalida (Redirect "restaurant:detalle_pedido") [] w
  end.

(** The view as decorated in the source. *)
Definition cambiar_estado_pedido (un_pk : Z) (ahora : Z) : View :=
  login_required
    (log_view_access "cambiar_estado_pedido"
       (require_role ["mesero"; "admin"; "cocina"] "cambiar_estado_pedido"
          (cambiar_estado_pedido_body un_pk ahora))).

(** ** [agregar_item_pedido] *)

Definition agregar_item_pedido_body (pedido_id : Z) (ahora : Z) : View := λ request w,
  match pedidos (db w) !! pedido_id with
  | None => mkSalida Http404 [] w
  | Some pedido =>
      if decide (method request = "POST") then
        match full_clean (POST_item request) (db w) with
        | inl cleaned =>
            let item := form_instance cleaned in
            let item := mkItemPedido (item_pk item) (pk pedido) (platillo_id item)
                          (platillo_cache item) (cantidad item) (precio_unitario item)
                          (item_subtotal item) (notas item) in
            match save item (db w) with
            | (Raise e, d) => mkSalida (ServerError e) [] (set_db d w)
            | (Ok item, d) =>
                let w := set_db d w in
                match calcular_totales pedido w with
                | (Raise e, _, w) => mkSalida (ServerError e) [] w
                | (Ok _, pedido, w) =>
                    let '(pedido_subject, w) := nuevo_subject pedido w in
                    let '(pedido_subject, w) :=
                      agregar_observador (mkObservador 1 CocinaObserver) pedido_subject w in
                    let '(pedido_subject, w) :=
                      agregar_observador (mkObservador 2 AdministradorObserver) pedido_subject w in
                    match agregar_item item (Some (username (user request))) ahora
                            pedido_subject w with
                    | Raise e => mkSalida (ServerError e) [] w
                    | Ok r =>
                        match resultado r with
                        | Ok _ =>
                            mkSalida (Redirect "restaurant:detalle_pedido")
                              [(Success, "Item agregado")]
                              (print (mkAviso "VIEW" "Item agregado" pedido_id) (mundo r))
                        | Raise e => mkSalida (ServerError e) [] (mundo r)
                        end
                    end
                end
            end
        | inr _ => mkSalida (Render "restaurant/pedidos/agregar_item.html") [] w
        end
      else mkSalida (Render "restaurant/pedidos/agregar_item.html") [] w
  end.

Definition agregar_item_pedido (pedido_id : Z) (ahora : Z) : View :=
  login_required
    (log_view_access "agregar_item_pedido"
       (require_role ["mesero"; "admin"] "agregar_item_pedido"
          (agregar_item_pedido_body pedido_id ahora))).

End Views.

(* ===================================================================== *)
(** * Scenarios                                                            *)
(* ===================================================================== *)

(** Concrete states, orders and requests on which the properties below are
    exercised. *)

Module Escenarios.
Import Py Models Observers Forms Views.

(** The configuration after the class was called once in a fresh process,
    with no configuration file: the instance is object 0, its dictionary
    object 1, and the rate is the [float] 0.16. *)
Definition recien_creado : Config.State :=
  (Config.RestaurantConfig None Config.process_start).2.

(** The same holder after [set_impuesto(Decimal('0.16'))]. *)
Definition con_tasa_decimal : Config.State :=
  (Config.set_impuesto 0%nat (VDecimal (mkDecimal 16 (-2))) recien_creado).2.

(** An order with one line item of 100.00, in a fresh process. *)
Definition pedido_100 : Pedido :=
  mkPedido 1 4 "pendiente" (VDecimal (mkDecimal 0 (-2)))
    (VDecimal (mkDecimal 0 (-2))) (VDecimal (mkDecimal 0 (-2))).

Definition db_100 : DB :=
  mkDB {[1 := mkPlatillo 1 "Mole" (mkDecimal 10000 (-2)) true]}
       {[1 := pedido_100]}
       [mkItemRow 1 1 1 1 (mkDecimal 10000 (-2)) (mkDecimal 10000 (-2)) ""].

Definition mundo_100 : World := mkWorld Config.process_start None db_100 [].

(** The same order where the rate was set to [Decimal('0.16')]. *)
Definition mundo_100_decimal : World := mkWorld con_tasa_decimal None db_100 [].

(** A dish at 45.00, an order, and a line item of three units as the form
    builds it. *)
Definition tacos : Platillo := mkPlatillo 1 "Tacos" (mkDecimal 4500 (-2)) true.

Definition db_tacos : DB :=
  mkDB {[1 := tacos]}
       {[7 := mkPedido 7 3 "pendiente" (VInt 0) (VInt 0) (VInt 0)]} [].

Definition item_tacos : ItemPedido := mkItemPedido None 7 1 (Some tacos) 3 None None "".

Definition mundo_tacos : World := mkWorld Config.process_start None db_tacos [].

(** The same tables where the rate was set to [Decimal('0.16')]. *)
Definition mundo_tacos_decimal : World := mkWorld con_tasa_decimal None db_tacos [].

(** A waiter's request that adds zero units of an available dish. *)
Definition pide_cero : Request :=
  mkRequest "POST" None (mkItemPedidoData (Some 1) (Some 0) "")
    (mkUser "ana" true ["mesero"]).

(** A waiter moves the delivered order 7 back to pending. *)
Definition pedido_entregado : Pedido :=
  mkPedido 7 3 "entregado" (VInt 0) (VInt 0) (VInt 0).

Definition mundo_entregado : World :=
  mkWorld Config.process_start None (mkDB ∅ {[7 := pedido_entregado]} []) [].

Definition pide_pendiente : Request :=
  mkRequest "POST" (Some "pendiente") (mkItemPedidoData None None "")
    (mkUser "ana" true ["mesero"]).

(** Three listeners, the second of which always fails. *)
Inductive Oyente : Type := L1 | L2 | L3.

#[global] Instance Oyente_eq_dec : EqDecision Oyente.
Proof. solve_decision. Defined.

#[global] Instance Oyente_Observer : Observer Oyente := {
  actualizar o p evento datos w :=
    match o with
    | L2 => (Raise (OtherException "RuntimeError"), w)
    | _ => (Ok (), print (mkAviso "OYENTE" evento (pk p)) w)
    end;
  class_name o := match o with L1 => "L1" | L2 => "L2" | L3 => "L3" end
}.

Definition pedido_9 : Pedido := mkPedido 9 2 "listo" (VInt 0) (VInt 0) (VInt 0).
Definition mundo_vacio : World := mkWorld Config.process_start None (mkDB ∅ ∅ []) [].

End Escenarios.

(* ===================================================================== *)
(** * The configuration file and the clients of the holder                *)
(* ===================================================================== *)

Module ConfigFile.
Import Py Config.

(** What [restaurant_config.json] is on disk. *)
Inductive Archivo : Type :=
| Ausente                      (** [os.path.exists] is false *)
| Documento (pares : PyDict)   (** a JSON object with these pairs *)
| Ilegible.                    (** a file [json.load] refuses: empty or cut short *)

(** What [_load_from_file] gets out of the file.  On an unreadable file
    [json.load] raises, the [except Exception] clause prints the error, and
    the holder keeps what it had, as with no file. *)
Definition json_load (a : Archivo) : option PyDict :=
  match a with
  | Documento pares => Some pares
  | Ausente | Ilegible => None
  end.

(** The values [json.dump] writes.  A [Decimal] is refused with [TypeError]
    ("Object of type Decimal is not JSON serializable"), and an [int] of more
    than 4300 digits with [ValueError] (the interpreter's limit on the
    conversion of an [int] to text).  Strings stand for text that UTF-8 can
    encode; a [float] is written by [repr], NaN and the infinities as [NaN]
    and [Infinity], which [json.load] reads back. *)
Definition json_serializable (v : PyVal) : bool :=
  match v with
  | VDecimal _ => false
  | VInt n => Z.abs n <? 10 ^ 4300
  | VBool _ | VFloat _ | VStr _ => true
  end.

(** [save_to_file]: [open(config_file, 'w')] empties the file, then
    [json.dump(self._config, f, indent=4)] writes the pairs one after the
    other.  An exception on the way ([AttributeError] for a missing
    [_config], or a value [json.dump] refuses) is caught and printed, and
    leaves a file that is cut short.  The text written for a [str], [bool],
    [int] or [float] is read back by [json.load] as the same value. *)
Definition save_to_file (self : loc) (st : State) : Archivo :=
  match stored self st with
  | Ok m =>
      if decide (map_Forall (λ _ v, json_serializable v = true) m)
      then Documento m
      else Ilegible
  | Raise _ => Ilegible
  end.

(** The server process and the file it leaves behind. *)
Record Sistema : Type := mkSistema {
  proceso : State;
  archivo : Archivo
}.

(** The first start, on a machine without configuration file. *)
Definition arranque : Sistema := mkSistema process_start Ausente.

(** What client code does with the holder: it calls the class and then one
    of the public methods; with the dictionary of [get_all_config] it does
    what it likes. *)
Inductive Metodo : Type :=
| MSetNombre (nombre : PyVal)
| MSetImpuesto (impuesto : PyVal)
| MSetPropina (propina : PyVal)
| MSetHorario (horario : PyVal)
| MSetCapacidad (capacidad : PyVal)
| MGetAll (ops : list DictOp)
| MSaveToFile.

Inductive Accion : Type :=
| Llamar (m : Metodo)     (** [config = RestaurantConfig(); config.m(...)] *)
| Reiniciar.              (** the process ends and a new one starts *)

Definition llamar (m : Metodo) (config : loc) (s : Sistema) : Sistema :=
  match m with
  | MSetNombre v =>
      mkSistema (set_nombre_restaurante config v (proceso s)).2 (archivo s)
  | MSetImpuesto v =>
      mkSistema (set_impuesto config v (proceso s)).2 (archivo s)
  | MSetPropina v =>
      mkSistema (set_propina_sugerida config v (proceso s)).2 (archivo s)
  | MSetHorario v =>
      mkSistema (set_horario config v (proceso s)).2 (archivo s)
  | MSetCapacidad v =>
      mkSistema (set_capacidad_maxima config v (proceso s)).2 (archivo s)
  | MGetAll ops =>
      match get_all_config config (proceso s) with
      | (Ok copia, st) => mkSistema (mutate_all copia ops st) (archivo s)
      | (Raise _, st) => mkSistema st (archivo s)
      end
  | MSaveToFile =>
      mkSistema (proceso s) (save_to_file config (proceso s))
  end.

Definition paso (x : Accion) (s : Sistema) : Sistema :=
  match x with
  | Llamar m =>
      let '(config, st) := RestaurantConfig (json_load (archivo s)) (proceso s) in
      llamar m config (mkSistema st (archivo s))
  | Reiniciar => mkSistema process_start (archivo s)
  end.

Definition correr (xs : list Accion) (s : Sistema) : Sistema :=
  foldl (λ s x, paso x s) s xs.

(** What [RestaurantConfig()] holds after its first call in a process. *)
Definition al_iniciar (file : option PyDict) : PyDict :=
  match file with
  | Some file_config => file_config ∪ default_config
  | None => default_config
  end.

(** A value above zero, as [capacidad > 0] decides it: a number whose exact
    value is positive, or the float [inf]. *)
Definition positive (v : PyVal) : Prop :=
  ∃ x, as_num v = Some x
       ∧ (num_value x = QPosInf ∨ ∃ q, num_value x = QFin q ∧ (0 < q)%Q).

(** Pairs in order: every key of the default configuration is there, the
    two rates lie in [0, 1] and the capacity is above zero. *)
Definition en_regla (m : PyDict) : Prop :=
  (∀ key, is_Some (default_config !! key) → is_Some (m !! key))
  ∧ (∃ v, m !! "impuesto" = Some v ∧ in_unit_interval v)
  ∧ (∃ v, m !! "propina_sugerida" = Some v ∧ in_unit_interval v)
  ∧ (∃ v, m !! "capacidad_maxima" = Some v ∧ positive v).

(** The invariant of a running system: the class is well formed, an
    initialised holder has its pairs in order, and so has a document on
    disk. *)
Definition en_orden (s : Sistema) : Prop :=
  wf (proceso s)
  ∧ (∀ self, _instance (proceso s) = Some self → _initialized (proceso s) = true →
       ∃ m, holds (proceso s) self m ∧ en_regla m)
  ∧ (∀ pares, archivo s = Documento pares → en_regla pares).

End ConfigFile.

(* ===================================================================== *)
(** * The clients of a subject                                             *)
(* ===================================================================== *)

Module Suscripciones.
Import Py Models Observers.

(** What client code does to the list of listeners of a subject. *)
Inductive Operacion (O : Type) : Type :=
| Agregar (o : O)     (** [subject.agregar_observador(o)] *)
| Quitar (o : O).     (** [subject.quitar_observador(o)] *)
Arguments Agregar {O} o.
Arguments Quitar {O} o.

Section Operar.
Context {O : Type} `{EqDecision O} `{Observer O}.

Definition aplicar (op : Operacion O) (sw : Res (PedidoSubject O) * World)
  : Res (PedidoSubject O) * World :=
  match sw with
  | (Ok s, w) =>
      match op with
      | Agregar o => let '(s', w') := agregar_observador o s w in (Ok s', w')
      | Quitar o => quitar_observador o s w
      end
  | (Raise e, w) => (Raise e, w)
  end.

(** [subject = PedidoSubject(p)] followed by the calls [ops], in order. *)
Definition operar (ops : list (Operacion O)) (p : Pedido) (w : World)
  : Res (PedidoSubject O) * World :=
  foldl (λ sw op, aplicar op sw)
        (let '(s, w') := nuevo_subject p w in (Ok s, w')) ops.

End Operar.

(** A listener did nothing: it returned normally and printed nothing. *)
Definition callado (r : Res unit * World) (w : World) : Prop := r = (Ok (), w).

End Suscripciones.

(* ===================================================================== *)
(** * The forms of dishes, tables, orders and payments                    *)
(* ===================================================================== *)

Module Formularios.
Import Py Models.

(** The truth value of a [Decimal]: false for zero only. *)
Definition dec_truthy (d : Decimal) : bool := negb (dec_coef d =? 0).

(** [PlatilloForm.clean_precio]:
    [if precio and precio <= 0: raise ValidationError].
    [precio] is [cleaned_data.get('precio')]: a [Decimal], or [None]. *)
Definition clean_precio (precio : option Decimal) : Res (option Decimal) :=
  match precio with
  | None => Ok None
  | Some d =>
      if dec_truthy d then
        match le_int (VDecimal d) 0 with
        | Ok true => Raise (ValidationError "El precio debe ser mayor a cero")
        | Ok false => Ok (Some d)
        | Raise e => Raise e
        end
      else Ok (Some d)
  end.

(** [PagoForm.clean_monto]: [if monto and monto <= 0: raise ValidationError] *)
Definition clean_monto (monto : option Decimal) : Res (option Decimal) :=
  match monto with
  | None => Ok None
  | Some d =>
      if dec_truthy d then
        match le_int (VDecimal d) 0 with
        | Ok true => Raise (ValidationError "El monto debe ser mayor a cero")
        | Ok false => Ok (Some d)
        | Raise e => Raise e
        end
      else Ok (Some d)
  end.

(** [PlatilloForm.clean_tiempo_preparacion]:
    [if tiempo and (tiempo < 1 or tiempo > 180): raise ValidationError] *)
Definition clean_tiempo_preparacion (tiempo : option Z) : Res (option Z) :=
  match tiempo with
  | None => Ok None
  | Some n =>
      if negb (n =? 0) && ((n <? 1) || (n >? 180))
      then Raise (ValidationError "El tiempo debe estar entre 1 y 180 minutos")
      else Ok (Some n)
  end.

(** [MesaForm.clean_capacidad]:
    [if capacidad and (capacidad < 1 or capacidad > 20): raise ValidationError] *)
Definition clean_capacidad (capacidad : option Z) : Res (option Z) :=
  match capacidad with
  | None => Ok None
  | Some n =>
      if negb (n =? 0) && ((n <? 1) || (n >? 20))
      then Raise (ValidationError "La capacidad debe estar entre 1 y 20 personas")
      else Ok (Some n)
  end.

(** A table. *)
Record Mesa : Type := mkMesa {
  numero : Z;
  capacidad : Z;
  ubicacion : string;
  activa : bool
}.

(** The table [Mesa], by primary key. *)
Abbreviation Mesas := (gmap Z Mesa).

(** [Mesa.objects.filter(numero=n).exists()] *)
Definition existe_numero (n : Z) (mesas : Mesas) : bool :=
  bool_decide (map_Exists (λ _ m, numero m = n) mesas).

(** [Mesa.objects.filter(numero=n).exclude(pk=k).exists()] *)
Definition existe_numero_aparte (n k : Z) (mesas : Mesas) : bool :=
  bool_decide (map_Exists (λ i m, numero m = n ∧ i ≠ k) mesas).

(** [MesaForm.clean_numero].  [instance_pk] is [self.instance.pk]: the key
    of the table being edited, [None] for a table being created; the tests
    [if numero] and [if self.instance.pk] are on truth values, so that
    [None] and [0] both count as false. *)
Definition clean_numero (instance_pk : option Z) (un_numero : option Z)
    (mesas : Mesas) : Res (option Z) :=
  match un_numero with
  | None => Ok None
  | Some n =>
      if negb (n =? 0) then
        let exists_ :=
          match instance_pk with
          | Some k =>
              if negb (k =? 0) then existe_numero_aparte n k mesas
              else existe_numero n mesas
          | None => existe_numero n mesas
          end in
        if exists_
        then Raise (ValidationError "Ya existe una mesa con el número")
        else Ok (Some n)
      else Ok (Some n)
  end.

(** No two tables share a number. *)
Definition numeros_unicos (mesas : Mesas) : Prop :=
  ∀ i j a b, mesas !! i = Some a → mesas !! j = Some b → numero a = numero b → i = j.

(** The statuses of an order that still occupies its table. *)
Definition estados_activos : list string := ["pendiente"; "en_preparacion"; "listo"].

(** [Pedido.objects.filter(mesa=mesa, estado__in=[...]).exists()].  An
    order refers to its table by the number of the table, which no two
    tables share ([unique=True]). *)
Definition pedido_activo (m : Mesa) (d : DB) : bool :=
  bool_decide (map_Exists (λ _ p, mesa p = numero m ∧ estado p ∈ estados_activos)
                 (pedidos d)).

(** [PedidoForm.clean_mesa] *)
Definition clean_mesa (una_mesa : option Mesa) (d : DB) : Res (option Mesa) :=
  match una_mesa with
  | Some m =>
      if pedido_activo m d
      then Raise (ValidationError "La mesa ya tiene un pedido activo")
      else Ok (Some m)
  | None => Ok None
  end.

(** The field [mesa] of [PedidoForm]: a choice among
    [Mesa.objects.filter(activa=True)], then [clean_mesa].  [data_mesa] is
    the submitted key, [None] when it is missing or malformed. *)
Definition field_mesa (data_mesa : option Z) (mesas : Mesas) (d : DB) : Res Mesa :=
  match data_mesa with
  | None => Raise (ValidationError "required")
  | Some k =>
      match mesas !! k with
      | Some m =>
          if activa m then
            r ← clean_mesa (Some m) d;
            match r with
            | Some m => Ok m
            | None => Raise (ValidationError "required")
            end
          else Raise (ValidationError "invalid_choice")
      | None => Raise (ValidationError "invalid_choice")
      end
  end.

End Formularios.

(* ===================================================================== *)
(** * The view that creates an order                                      *)
(* ===================================================================== *)

Module VistaCrear.
Import Py Models Observers Forms Views Formularios.

(** The key the database gives to a new order: one above the largest. *)
Definition next_pedido_pk (d : DB) : Z :=
  1 + foldr Z.max 0 (map_to_list (pedidos d)).*1.

(** [get_object_or_404(Mesa, pk=mesa_id)] under [if mesa_id:]. *)
Definition mesa_de_url (mesa_id : option Z) (mesas : Mesas) : option (option Mesa) :=
  match mesa_id with
  | Some k =>
      if negb (k =? 0) then
        match mesas !! k with
        | Some m => Some (Some m)
        | None => None
        end
      else Some None
  | None => Some None
  end.

(** The body of [crear_pedido].  [mesas] is the table [Mesa], which the
    view only reads; [mesa_id] is the optional key in the URL, [data_mesa]
    the submitted field [mesa], [ahora] the clock.  The new order takes the
    defaults of the model: status [pendiente] and the three amounts 0.  (The
    waiter and the notes of the order are not among the fields that the
    record [Pedido] carries.) *)
Definition crear_pedido_body (mesas : Mesas) (mesa_id : option Z)
    (data_mesa : option Z) (ahora : Z) : View := λ request w,
  match mesa_de_url mesa_id mesas with
  | None => mkSalida Http404 [] w
  | Some _ =>
      if decide (method request = "POST") then
        match field_mesa data_mesa mesas (db w) with
        | Ok m =>
            let k := next_pedido_pk (db w) in
            let pedido := mkPedido k (numero m) "pendiente" (VInt 0) (VInt 0) (VInt 0) in
            let w := set_db (save_pedido pedido (db w)) w in
            let '(pedido_subject, w) := nuevo_subject pedido w in
            let '(pedido_subject, w) :=
              agregar_observador (mkObservador 1 CocinaObserver) pedido_subject w in
            let '(pedido_subject, w) :=
              agregar_observador (mkObservador 2 MeseroObserver) pedido_subject w in
            let '(pedido_subject, w) :=
              agregar_observador (mkObservador 3 AdministradorObserver) pedido_subject w in
            let '(pedido_subject, r) :=
              cambiar_estado "pendiente" (Some (username (user request))) ahora
                pedido_subject w in
            match resultado r with
            | Ok _ =>
                mkSalida (Redirect "restaurant:detalle_pedido")
                  [(Success, "Pedido creado exitosamente")]
                  (print (mkAviso "VIEW" "Pedido creado" k) (mundo r))
            | Raise e => mkSalida (ServerError e) [] (mundo r)
            end
        | Raise _ => mkSalida (Render "restaurant/pedidos/form.html") [] w
        end
      else mkSalida (Render "restaurant/pedidos/form.html") [] w
  end.

(** The view as decorated in the source. *)
Definition crear_pedido (mesas : Mesas) (mesa_id : option Z)
    (data_mesa : option Z) (ahora : Z) : View :=
  login_required
    (log_view_access "crear_pedido"
       (require_role ["mesero"; "admin"] "crear_pedido"
          (crear_pedido_body mesas mesa_id data_mesa ahora))).

(** An order that still occupies its table. *)
Definition activo (p : Pedido) : Prop := estado p ∈ estados_activos.

(** No table has two orders that occupy it. *)
Definition un_activo_por_mesa (d : DB) : Prop :=
  ∀ k1 k2 p1 p2,
    pedidos d !! k1 = Some p1 → pedidos d !! k2 = Some p2 →
    mesa p1 = mesa p2 → activo p1 → activo p2 → k1 = k2.

(** Two tables; table 3 has a delivered order and a pending one. *)
Definition dos_mesas : Mesas :=
  {[ 1 := mkMesa 3 4 "Terraza" true; 2 := mkMesa 5 2 "Interior" true ]}.

Definition db_mesa_3 : DB :=
  mkDB ∅ {[ 7 := mkPedido 7 3 "entregado" (VInt 0) (VInt 0) (VInt 0);
            8 := mkPedido 8 3 "pendiente" (VInt 0) (VInt 0) (VInt 0) ]} [].

Definition mundo_mesa_3 : World := mkWorld Config.process_start None db_mesa_3 [].

Definition pide_mesa (m : string) : Request :=
  mkRequest m None (mkItemPedidoData None None "") (mkUser "ana" true ["mesero"]).

End VistaCrear.

(* ===================================================================== *)
(** * Properties of the configuration holder                              *)
(* ===================================================================== *)

From Stdlib Require Import ssreflect.
Set Warnings "-rewrite-rw".
Set Warnings "-deprecated-since-9.3".


Section ConfigProps.
Import Py Config Escenarios.

Lemma fresh_unused (h : gmap loc Obj) : h !! fresh (dom h) = None.
Proof. apply not_elem_of_dom, is_fresh. Qed.

Lemma fresh_differs (h : gmap loc Obj) (l : loc) (o : Obj) :
  h !! l = Some o → fresh (dom h) ≠ l.
Proof. intros Ho Heq. rewrite -Heq fresh_unused in Ho. done. Qed.

Lemma holds_stored st self m : holds st self m → stored self st = Ok m.
Proof.
  intros (d & Hs & Hd). by rewrite /stored /get_config_attr Hs /= /read_dict Hd.
Qed.

Lemma holds_getitem st self m key :
  holds st self m →
  getitem self key st = match m !! key with Some v => Ok v | None => Raise (KeyError key) end.
Proof.
  intros (d & Hs & Hd). by rewrite /getitem /get_config_attr Hs /= /read_dict Hd.
Qed.

Lemma holds_setitem st self m key v :
  holds st self m →
  ∃ st', setitem self key v st = (Ok (), st')
         ∧ holds st' self (<[key := v]> m)
         ∧ _instance st' = _instance st ∧ _initialized st' = _initialized st.
Proof.
  intros (d & Hs & Hd).
  assert (d ≠ self) as Hne by (intros ->; congruence).
  eexists. rewrite /setitem /get_config_attr Hs /read_dict Hd. split; [done|].
  split; [|done]. exists d. rewrite /=. by simplify_map_eq.
Qed.

(** The first initialisation leaves an initialised holder behind. *)
Lemma init_holds self file st :
  is_Some (heap st !! self) → _initialized st = false →
  _initialized (__init__ self file st) = true
  ∧ _instance (__init__ self file st) = _instance st
  ∧ ∃ m, holds (__init__ self file st) self m.
Proof.
  intros Hself Hinit. rewrite /__init__ Hinit.
  set (d := fresh (dom (heap st))).
  destruct Hself as [o Hself].
  assert (d ≠ self) as Hne by by apply (fresh_differs _ _ o).
  set (st1 := set_heap _ st).
  assert (holds st1 self default_config) as Hh.
  { exists d. rewrite /st1 /=. by simplify_map_eq. }
  assert (_instance st1 = _instance st) as Hi by done.
  destruct file as [fc|]; simpl.
  - destruct Hh as (d' & Hs & Hd).
    rewrite /_load_from_file /get_config_attr Hs /read_dict Hd /=.
    do 2 (split; [done|]). exists (fc ∪ default_config), d'.
    assert (d' ≠ self) by (intros ->; congruence).
    rewrite /st1 /= in Hs. rewrite /=. by simplify_map_eq.
  - do 2 (split; [done|]). by exists default_config.
Qed.

(** Calling the class in a well-formed state yields the instance, with the
    class marked initialised and the holder's dictionary in place. *)
Lemma RestaurantConfig_holds file st :
  wf st →
  _instance (RestaurantConfig file st).2 = Some (RestaurantConfig file st).1
  ∧ _initialized (RestaurantConfig file st).2 = true
  ∧ ∃ m, holds (RestaurantConfig file st).2 (RestaurantConfig file st).1 m.
Proof.
  rewrite /wf /RestaurantConfig /__new__. intros Hwf.
  destruct (_instance st) as [self|] eqn:Hinst.
  - destruct (_initialized st) eqn:Hinit.
    + destruct Hwf as (d & m & Hs & Hd). rewrite /= /__init__ Hinit.
      do 2 (split; [done|]). by exists m, d.
    + destruct Hwf as (c & Hs).
      assert (is_Some (heap st !! self)) as Hsome by (rewrite Hs; by eexists).
      destruct (init_holds self file st Hsome Hinit) as (H1 & H2 & H3).
      rewrite /= H2. done.
  - set (l := fresh (dom (heap st))). set (st1 := mkState _ _ _).
    assert (is_Some (heap st1 !! l)) as Hsome.
    { rewrite /st1 /= lookup_insert_eq. by eexists. }
    assert (_initialized st1 = false) as Hinit by by rewrite /st1 /=.
    destruct (init_holds l file st1 Hsome Hinit) as (H1 & H2 & H3).
    rewrite /= H2. done.
Qed.

(** Once the class is initialised, calling it again changes nothing. *)
Lemma RestaurantConfig_again file st self :
  _instance st = Some self → _initialized st = true →
  RestaurantConfig file st = (self, st).
Proof.
  intros Hi Hb. by rewrite /RestaurantConfig /__new__ Hi /__init__ Hb.
Qed.

Lemma load_keeps_class self file st :
  _instance (_load_from_file self file st) = _instance st
  ∧ _initialized (_load_from_file self file st) = _initialized st.
Proof.
  rewrite /_load_from_file. destruct file as [fc|]; [|done].
  destruct (get_config_attr self st) as [d|]; [|done].
  by destruct (read_dict d st).
Qed.

Lemma init_marks self file st :
  _initialized (__init__ self file st) = true
  ∧ _instance (__init__ self file st) = _instance st.
Proof.
  rewrite /__init__. destruct (_initialized st) eqn:Hb; [done|].
  split; [done|]. simpl. by destruct (load_keeps_class self file
    (set_heap (<[self:=Instance (Some (fresh (dom (heap st))))]>
                 (<[fresh (dom (heap st)):=Dict default_config]> (heap st))) st)) as [-> _].
Qed.

(** In any state at all, a call of the class leaves it initialised, with
    the returned object as its instance. *)
Lemma RestaurantConfig_marks file st :
  _initialized (RestaurantConfig file st).2 = true
  ∧ _instance (RestaurantConfig file st).2 = Some (RestaurantConfig file st).1.
Proof.
  rewrite /RestaurantConfig /__new__.
  destruct (_instance st) as [self|] eqn:Hinst; simpl;
    (split; [apply init_marks|]); by rewrite (proj2 (init_marks _ _ _)).
Qed.

Lemma wf_process_start : wf process_start.
Proof. done. Qed.

Lemma wf_RestaurantConfig file st : wf st → wf (RestaurantConfig file st).2.
Proof.
  intros Hwf. destruct (RestaurantConfig_holds file st Hwf) as (Hi & Hb & m & d & Hs & Hd).
  rewrite /wf Hi Hb. eauto.
Qed.

(** Writing into a dictionary keeps every instance and every dictionary in
    place, so the invariant survives setters and callers' mutations. *)
Lemma wf_dict_write st l m' :
  wf st → (∃ m, heap st !! l = Some (Dict m)) →
  wf (set_heap (<[l := Dict m']> (heap st)) st).
Proof.
  rewrite /wf /=. intros Hwf [m Hl].
  destruct (_instance st) as [self|]; [|done].
  assert (l ≠ self).
  { intros ->. destruct (_initialized st); [destruct Hwf as (? & ? & ? & _)|destruct Hwf];
      congruence. }
  destruct (_initialized st).
  - destruct Hwf as (d & md & Hs & Hd). exists d.
    destruct (decide (l = d)) as [->|]; [exists m'|exists md]; by simplify_map_eq.
  - destruct Hwf as [c Hs]. exists c. by simplify_map_eq.
Qed.

Lemma wf_setitem self key v st : wf st → wf (setitem self key v st).2.
Proof.
  intros Hwf. rewrite /setitem.
  destruct (get_config_attr self st) as [d|]; [|done].
  destruct (read_dict d st) as [m|] eqn:Hm; [|done].
  apply wf_dict_write; [done|]. exists m.
  rewrite /read_dict in Hm. by destruct (heap st !! d) as [[]|]; simplify_eq.
Qed.

Lemma wf_mutate l op st : wf st → wf (mutate l op st).
Proof.
  intros Hwf. rewrite /mutate.
  destruct (heap st !! l) as [[c|m]|] eqn:Hl; [done| |done].
  apply wf_dict_write; [done|by exists m].
Qed.

(** The value test of the chained comparison [0 <= v <= 1]. *)
Lemma between_unit v x :
  as_num v = Some x →
  (in_unit_interval v → between 0 v 1 = Ok true)
  ∧ (¬ in_unit_interval v → between 0 v 1 = Ok false).
Proof.
  intros Hx. rewrite /between /int_le /le_int Hx /in_unit_interval.
  destruct (num_value x) as [| |q|] eqn:Hv; simpl.
  - split; [|done]. intros (x' & q & ? & ? & _). congruence.
  - split; [|done]. intros (x' & q & ? & ? & _). congruence.
  - assert (in_unit_interval v ↔ Qle_bool 0 q = true ∧ Qle_bool q 1 = true) as Hiff.
    { rewrite !Qle_bool_iff. split.
      - intros (x' & q' & ? & ? & Hq). by assert (q' = q) as <- by congruence.
      - intros []. by exists x, q. }
    rewrite /in_unit_interval in Hiff. rewrite Hiff.
    change (inject_Z 0) with 0%Q. change (inject_Z 1) with 1%Q.
    destruct (Qle_bool 0 q); destruct (Qle_bool q 1); split; try done;
      intros Hn; by destruct Hn.
  - split; [|done]. intros (x' & q & ? & ? & _). congruence.
Qed.

Lemma between_not_number lo v hi :
  as_num v = None → between lo v hi = Raise TypeError.
Proof. intros Hx. by rewrite /between /int_le Hx. Qed.

(** A mutation of a dictionary other than the holder's leaves the holder's
    instance and dictionary as they are. *)
Lemma mutate_elsewhere l op st self d m :
  heap st !! self = Some (Instance (Some d)) →
  heap st !! d = Some (Dict m) →
  l ≠ d →
  heap (mutate l op st) !! self = Some (Instance (Some d))
  ∧ heap (mutate l op st) !! d = Some (Dict m).
Proof.
  intros Hs Hd Hne. rewrite /mutate.
  destruct (heap st !! l) as [[c|m']|] eqn:Hl; [done| |done].
  assert (l ≠ self) by (intros ->; congruence).
  rewrite /=. by simplify_map_eq.
Qed.

Lemma mutate_all_elsewhere l ops st self d m :
  heap st !! self = Some (Instance (Some d)) →
  heap st !! d = Some (Dict m) →
  l ≠ d →
  heap (mutate_all l ops st) !! self = Some (Instance (Some d))
  ∧ heap (mutate_all l ops st) !! d = Some (Dict m).
Proof.
  rewrite /mutate_all. revert st.
  induction ops as [|op ops IH]; intros st Hs Hd Hne; [done|].
  destruct (mutate_elsewhere l op st self d m Hs Hd Hne) as [Hs' Hd'].
  by apply IH.
Qed.

(** C6.  [set_impuesto] on an initialised holder: a number whose value lies
    in [0, 1] is stored as the tax rate (and read back by [get_impuesto]);
    any other argument is rejected, by the error branch or by the
    [TypeError] of the comparison, and the state, so the stored tax rate,
    is left exactly as it was. *)
Theorem set_impuesto_validates st self m v :
  holds st self m →
  (in_unit_interval v →
     ∃ st', Config.set_impuesto self v st = (Ok Updated, st')
            ∧ holds st' self (<["impuesto" := v]> m)
            ∧ get_impuesto self st' = Ok v)
  ∧ (¬ in_unit_interval v →
     ∃ r, Config.set_impuesto self v st = (r, st)
          ∧ (r = Ok Rejected ∨ r = Raise TypeError)).
Proof.
  intros Hh. rewrite /Config.set_impuesto /guarded_set.
  destruct (as_num v) as [x|] eqn:Hx.
  - destruct (between_unit v x Hx) as [Hin Hout]. split.
    + intros Hv. rewrite (Hin Hv).
      destruct (holds_setitem st self m "impuesto" v Hh) as (st' & -> & Hh' & _).
      exists st'. split; [done|]. split; [done|].
      by rewrite /get_impuesto (holds_getitem st' self _ _ Hh') lookup_insert_eq.
    + intros Hv. rewrite (Hout Hv). exists (Ok Rejected). by split; [|left].
  - split.
    + intros (x & q & Hx' & _). congruence.
    + intros _. rewrite (between_not_number 0 v 1 Hx).
      exists (Raise TypeError). by split; [|right].
Qed.

Lemma set_impuesto_validates_witness :
  holds recien_creado 0%nat default_config
  ∧ ∃ r, Config.set_impuesto 0%nat (VFloat 1.5) recien_creado = (r, recien_creado)
         ∧ (r = Ok Rejected ∨ r = Raise TypeError).
Proof.
  assert (holds recien_creado 0%nat default_config) as Hh
    by (exists 1%nat; split; reflexivity).
  split; [exact Hh|].
  apply (set_impuesto_validates recien_creado 0%nat default_config (VFloat 1.5) Hh).
  intros (x & q & Hx & Hq & _ & Hle).
  injection Hx as <-. vm_compute in Hq. injection Hq as <-.
  vm_compute in Hle. by apply Hle.
Defined.

(** [set_impuesto(0.5)] stores 0.5. *)
Example set_impuesto_0_5 :
  in_unit_interval (VFloat 0.5)
  ∧ (Config.set_impuesto 0%nat (VFloat 0.5) recien_creado).1 = Ok Updated
  ∧ get_impuesto 0%nat (Config.set_impuesto 0%nat (VFloat 0.5) recien_creado).2
    = Ok (VFloat 0.5).
Proof.
  split; [|split; reflexivity].
  eexists _, _. split; [reflexivity|]. split; [by vm_compute|]. split; by vm_compute.
Qed.

(** [set_impuesto(1.5)] prints the error line and keeps the rate 0.16. *)
Example set_impuesto_1_5 :
  Config.set_impuesto 0%nat (VFloat 1.5) recien_creado = (Ok Rejected, recien_creado)
  ∧ get_impuesto 0%nat recien_creado = Ok (VFloat 0.16).
Proof. split; reflexivity. Qed.

(** C7.  Two calls of [RestaurantConfig()] in one process return the same
    object; the second call changes nothing (no re-initialisation), also
    when a setter ran in between; and a value stored through the first
    result is read through the second. *)
Theorem singleton_shares_state st file1 file2 :
  wf st →
  let '(a, st1) := RestaurantConfig file1 st in
  let '(b, st2) := RestaurantConfig file2 st1 in
  b = a ∧ st2 = st1
  ∧ (∃ m, holds st2 b m)
  ∧ (∀ key v, let st1' := (setitem a key v st1).2 in
       RestaurantConfig file2 st1' = (a, st1') ∧ getitem a key st1' = Ok v)
  ∧ (∀ v, in_unit_interval v →
       get_impuesto b (Config.set_impuesto a v st2).2 = Ok v).
Proof.
  intros Hwf.
  destruct (RestaurantConfig_holds file1 st Hwf) as (Hi & Hb & m & Hh).
  destruct (RestaurantConfig file1 st) as [a st1]. simpl in *.
  rewrite (RestaurantConfig_again file2 st1 a Hi Hb).
  split; [done|]. split; [done|]. split; [by exists m|]. split.
  - intros key v.
    destruct (holds_setitem st1 a m key v Hh) as (st' & Heq & Hh' & Hi' & Hb').
    rewrite Heq /=. split.
    + apply RestaurantConfig_again; congruence.
    + by rewrite (holds_getitem st' a _ _ Hh') lookup_insert_eq.
  - intros v Hv. rewrite /Config.set_impuesto /guarded_set.
    assert (∃ x, as_num v = Some x) as [x Hx] by (destruct Hv as (x & _ & ? & _); by exists x).
    destruct (between_unit v x Hx) as [Hin _]. rewrite (Hin Hv).
    destruct (holds_setitem st1 a m "impuesto" v Hh) as (st' & -> & Hh' & _).
    by rewrite /get_impuesto (holds_getitem st' a _ _ Hh') lookup_insert_eq.
Qed.

Lemma singleton_shares_state_witness :
  wf process_start
  ∧ let '(a, st1) := RestaurantConfig None process_start in
    let '(b, st2) := RestaurantConfig (Some {["impuesto" := VFloat 0.5]}) st1 in
    b = a ∧ st2 = st1
    ∧ (∃ m, holds st2 b m)
    ∧ (∀ key v, let st1' := (setitem a key v st1).2 in
         RestaurantConfig (Some {["impuesto" := VFloat 0.5]}) st1' = (a, st1')
         ∧ getitem a key st1' = Ok v)
    ∧ (∀ v, in_unit_interval v →
         get_impuesto b (Config.set_impuesto a v st2).2 = Ok v).
Proof.
  assert (wf process_start) as Hwf by reflexivity.
  split; [exact Hwf|].
  exact (singleton_shares_state process_start None
           (Some {["impuesto" := VFloat 0.5]}) Hwf).
Defined.

(** C9.  [get_all_config] returns a new dictionary with exactly the stored
    pairs; whatever the caller then does to that dictionary, the holder keeps
    its pairs, and every getter answers as before. *)
Theorem get_all_config_is_a_copy st self m :
  holds st self m →
  ∃ copia st',
    get_all_config self st = (Ok copia, st')
    ∧ read_dict copia st' = Ok m
    ∧ (∀ key v, m !! key = Some v →
         ∃ m', read_dict copia st' = Ok m' ∧ m' !! key = Some v)
    ∧ ∀ ops, holds (mutate_all copia ops st') self m
             ∧ ∀ key, getitem self key (mutate_all copia ops st') = getitem self key st.
Proof.
  intros (d & Hs & Hd).
  set (copia := fresh (dom (heap st))).
  assert (copia ≠ d) by by apply (fresh_differs _ _ (Dict m)).
  assert (copia ≠ self) by by apply (fresh_differs _ _ (Instance (Some d))).
  exists copia, (set_heap (<[copia := Dict m]> (heap st)) st).
  rewrite /get_all_config /get_config_attr Hs /read_dict Hd /=.
  split; [done|]. split; [by simplify_map_eq|]. split.
  { intros key v Hkv. exists m. by simplify_map_eq. }
  intros ops.
  set (st' := set_heap _ st).
  assert (heap st' !! self = Some (Instance (Some d))) as Hs'
    by (rewrite /st' /=; by simplify_map_eq).
  assert (heap st' !! d = Some (Dict m)) as Hd'
    by (rewrite /st' /=; by simplify_map_eq).
  destruct (mutate_all_elsewhere copia ops st' self d m Hs' Hd') as [Hs'' Hd'']; [done|].
  assert (holds (mutate_all copia ops st') self m) as Hh by by exists d.
  split; [done|]. intros key.
  rewrite (holds_getitem _ self m key Hh).
  by rewrite (holds_getitem st self m key) //; exists d.
Qed.

Lemma get_all_config_is_a_copy_witness :
  holds recien_creado 0%nat default_config
  ∧ ∃ copia st',
      get_all_config 0%nat recien_creado = (Ok copia, st')
      ∧ read_dict copia st' = Ok default_config
      ∧ (∀ key v, default_config !! key = Some v →
           ∃ m', read_dict copia st' = Ok m' ∧ m' !! key = Some v)
      ∧ ∀ ops, holds (mutate_all copia ops st') 0%nat default_config
               ∧ ∀ key, getitem 0%nat key (mutate_all copia ops st')
                        = getitem 0%nat key recien_creado.
Proof.
  assert (holds recien_creado 0%nat default_config) as Hh
    by (exists 1%nat; split; reflexivity).
  split; [exact Hh|].
  exact (get_all_config_is_a_copy recien_creado 0%nat default_config Hh).
Defined.

(** Overwriting and deleting the tax rate in the returned dictionary does
    not change what [get_impuesto] answers. *)
Example get_all_config_example :
  let '(r, st') := get_all_config 0%nat recien_creado in
  r = Ok 2%nat
  ∧ get_impuesto 0%nat
      (mutate_all 2%nat [SetItem "impuesto" (VFloat 0.5); DelItem "moneda"; Clear] st')
    = Ok (VFloat 0.16).
Proof. split; reflexivity. Qed.

End ConfigProps.

(* ===================================================================== *)
(** * Properties of the models                                            *)
(* ===================================================================== *)

Section ModelsProps.
Import Py Models Escenarios.

Lemma save_pedido_twice p d : save_pedido p (save_pedido p d) = save_pedido p d.
Proof. rewrite /save_pedido /=. by rewrite insert_insert_eq. Qed.

(** Adding decimals never raises: [sum] over line items is a left fold of
    [Decimal.__add__], started by [0 + first]. *)
Lemma py_sum_from_decimals (a : Decimal) (ds : list Decimal) :
  py_sum_from (VDecimal a) (map VDecimal ds) = Ok (VDecimal (foldl dec_add a ds)).
Proof.
  revert a. induction ds as [|d ds IH]; intros a; [done|].
  by rewrite /= IH.
Qed.

Lemma py_sum_decimals (d : Decimal) (ds : list Decimal) :
  py_sum (map VDecimal (d :: ds))
  = Ok (VDecimal (foldl dec_add (dec_add (Decimal_of_int 0) d) ds)).
Proof. by rewrite /py_sum /= py_sum_from_decimals. Qed.

Lemma map_subtotals (rows : list ItemRow) :
  map (λ item, VDecimal (row_subtotal item)) rows = map VDecimal (map row_subtotal rows).
Proof. by rewrite map_map. Qed.

(** C2.  [calcular_totales] is idempotent: run again on the order object
    and the world the first run left (line items untouched in between), it
    ends the same way and leaves the same object, so the same subtotal, tax
    and total, and the same world, stored row included. *)
Theorem calcular_totales_idempotent self w :
  let '(r1, p1, w1) := calcular_totales self w in
  calcular_totales p1 w1 = (r1, p1, w1).
Proof.
  rewrite /calcular_totales.
  destruct (RestaurantConfig_marks (config_file w) (cfg w)) as [Hb Hi].
  destruct (Config.RestaurantConfig (config_file w) (cfg w)) as [config c1] eqn:HRC.
  simpl in Hb, Hi.
  pose proof (RestaurantConfig_again (config_file w) c1 config Hi Hb) as Hagain.
  rewrite /=.
  destruct (py_sum _) as [s|e] eqn:Hsum.
  2:{ rewrite /= Hagain /= Hsum. done. }
  destruct (Config.get_impuesto config c1) as [rate|e] eqn:Hrate.
  2:{ rewrite /= Hagain /= Hsum Hrate. done. }
  destruct (py_mul s rate) as [i|e] eqn:Hmul.
  2:{ rewrite /= Hagain /= Hsum Hrate Hmul. done. }
  destruct (py_add s i) as [t|e] eqn:Hadd.
  2:{ rewrite /= Hagain /= Hsum Hrate Hmul Hadd. done. }
  rewrite /= Hagain /= Hsum Hrate Hmul Hadd /=.
  rewrite /with_total /with_impuesto /with_subtotal /= save_pedido_twice. done.
Qed.



(** Subtotal 100.00 at the rate [Decimal('0.16')]: tax 16.0000 and total
    116.0000, that is 16 and 116. *)
Example calcular_totales_100 :
  let '(r, p, w) := calcular_totales pedido_100 mundo_100_decimal in
  r = Ok ()
  ∧ subtotal p = VDecimal (mkDecimal 10000 (-2))
  ∧ impuesto p = VDecimal (mkDecimal 160000 (-4))
  ∧ total p = VDecimal (mkDecimal 1160000 (-4))
  ∧ pedidos (db w) !! 1 = Some p
  ∧ (dec_value (mkDecimal 160000 (-4)) == 16)%Q
  ∧ (dec_value (mkDecimal 1160000 (-4)) == 116)%Q.
Proof. vm_compute. repeat split. Qed.

(** X2.  With a [float] rate, which is what the defaults, the JSON file and the
    configuration view all store, an order with at least one line item cannot
    be totalled: [Decimal * float] raises [TypeError] after the subtotal was
    assigned; tax and total keep their old values and nothing is saved. *)
Theorem calcular_totales_float_rate self w (f : float) :
  item_set self (db w) ≠ [] →
  let '(config, c1) := Config.RestaurantConfig (config_file w) (cfg w) in
  Config.get_impuesto config c1 = Ok (VFloat f) →
  ∃ s : Decimal,
    calcular_totales self w
    = (Raise TypeError, with_subtotal (VDecimal s) self, set_cfg c1 w).
Proof.
  intros Hne. rewrite /calcular_totales.
  destruct (Config.RestaurantConfig (config_file w) (cfg w)) as [config c1].
  intros Hrate. rewrite /= Hrate map_subtotals.
  destruct (item_set self (db w)) as [|r rows]; [done|].
  rewrite /= py_sum_decimals /=. by eexists.
Qed.

Lemma calcular_totales_float_rate_witness :
  item_set pedido_100 (db mundo_100) ≠ []
  ∧ ∃ s : Decimal,
      calcular_totales pedido_100 mundo_100
      = (Raise TypeError, with_subtotal (VDecimal s) pedido_100,
         set_cfg (Config.RestaurantConfig None Config.process_start).2 mundo_100).
Proof.
  split; [done|].
  exact (calcular_totales_float_rate pedido_100 mundo_100 0.16
           ltac:(done) eq_refl).
Defined.

(** C1, at the failing input.  Subtotal 100.00 under the default rate 0.16:
    the call raises [TypeError]; the object has the new subtotal but neither
    tax 16.00 nor total 116.00, and the stored row is not written. *)
Theorem calcular_totales_default_rate_raises :
  let '(r, p, w) := calcular_totales pedido_100 mundo_100 in
  r = Raise TypeError
  ∧ subtotal p = VDecimal (mkDecimal 10000 (-2))
  ∧ impuesto p = VDecimal (mkDecimal 0 (-2))
  ∧ total p = VDecimal (mkDecimal 0 (-2))
  ∧ pedidos (db w) !! 1 = Some pedido_100.
Proof. vm_compute. repeat split. Qed.

(** An order without line items is totalled, in [int] and [float]. *)
Example calcular_totales_empty :
  let w := mkWorld Config.process_start None (mkDB ∅ {[1 := pedido_100]} []) [] in
  let '(r, p, _) := calcular_totales pedido_100 w in
  r = Ok () ∧ subtotal p = VInt 0 ∧ impuesto p = VFloat 0 ∧ total p = VFloat 0.
Proof. repeat split. Qed.

(** ** Line items *)








(** Quantity 3 at unit price 45.00 gives the line subtotal 135.00. *)
Example save_3_tacos :
  (save item_tacos db_tacos).2
  = mkDB (platillos db_tacos) (pedidos db_tacos)
      [mkItemRow 1 7 1 3 (mkDecimal 4500 (-2)) (mkDecimal 13500 (-2)) ""].
Proof. reflexivity. Qed.


End ModelsProps.

(* ===================================================================== *)
(** * Properties of the line-item form                                    *)
(* ===================================================================== *)

Section FormsProps.
Import Py Models Forms Views Escenarios.

(** X3.  What [clean_cantidad] does for every integer: 1 to 50 pass, negative
    numbers and numbers above 50 are refused, and 0 passes as well. *)
Theorem clean_cantidad_cases (n : Z) :
  (1 ≤ n ≤ 50 → clean_cantidad (Some n) = Ok (Some n))
  ∧ (n < 0 ∨ 50 < n →
       clean_cantidad (Some n)
       = Raise (ValidationError "La cantidad debe estar entre 1 y 50"))
  ∧ (n = 0 → clean_cantidad (Some n) = Ok (Some 0)).
Proof.
  rewrite /clean_cantidad. repeat split.
  - intros [H1 H50].
    assert ((n <? 1) = false) as -> by lia.
    assert ((n >? 50) = false) as -> by lia.
    by rewrite andb_false_r.
  - intros Hn.
    assert ((n =? 0) = false) as -> by lia.
    destruct Hn.
    + by assert ((n <? 1) = true) as -> by lia.
    + assert ((n >? 50) = true) as -> by lia. by rewrite orb_true_r.
  - by intros ->.
Qed.

(** C8, at the failing input.  Quantity 0 is outside [1, 50], yet
    [clean_cantidad] returns it, the form is valid, and the view stores a
    line item with quantity 0: under the default configuration (where the
    request then fails in [calcular_totales], after the row was written) and
    under a [Decimal] rate (where the request succeeds). *)
Theorem cantidad_cero_is_persisted :
  clean_cantidad (Some 0) = Ok (Some 0)
  ∧ full_clean (POST_item pide_cero) db_tacos = inl (mkCleanedData tacos 0 "")
  ∧ items (db (despues (agregar_item_pedido 7 0 pide_cero mundo_tacos)))
    = [mkItemRow 1 7 1 0 (mkDecimal 4500 (-2)) (mkDecimal 0 (-2)) ""]
  ∧ (let out := agregar_item_pedido 7 0 pide_cero mundo_tacos_decimal in
     respuesta out = Redirect "restaurant:detalle_pedido"
     ∧ mensajes out = [(Success, "Item agregado")]
     ∧ items (db (despues out))
       = [mkItemRow 1 7 1 0 (mkDecimal 4500 (-2)) (mkDecimal 0 (-2)) ""]).
Proof.
  split; [reflexivity|]. split; [reflexivity|]. split; [by vm_compute|].
  by vm_compute.
Qed.

(** X4.  Any other quantity outside [1, 50] yields a field error on
    [cantidad], and the view [agregar_item_pedido] then writes nothing to
    the database, whoever sends the request. *)
Theorem cantidad_fuera_de_rango_rejected (n : Z) pedido_id ahora request w :
  n ≠ 0 → (n < 1 ∨ 50 < n) → data_cantidad (POST_item request) = Some n →
  (∃ errors, full_clean (POST_item request) (db w) = inr errors
             ∧ "cantidad" ∈ errors.*1)
  ∧ db (despues (agregar_item_pedido pedido_id ahora request w)) = db w.
Proof.
  intros Hn0 Hn Hdata.
  assert (∀ d, ∃ errors, full_clean (POST_item request) d = inr errors
                         ∧ "cantidad" ∈ errors.*1) as Hform.
  { intros d. rewrite /full_clean /field_cantidad Hdata /clean_cantidad.
    assert (negb (n =? 0) && ((n <? 1) || (n >? 50)) = true) as -> by lia.
    simpl.
    destruct (field_platillo (POST_item request) d); eexists; (split; [done|]); simpl.
    - apply list_elem_of_singleton. done.
    - apply elem_of_cons. right. by apply list_elem_of_singleton. }
  split; [apply Hform|].
  rewrite /agregar_item_pedido /log_view_access /require_role /login_required.
  destruct (is_authenticated (user request)); [|done]. cbv beta zeta.
  destruct (existsb _ _); [|done]. simpl.
  rewrite /agregar_item_pedido_body /=.
  destruct (pedidos (db w) !! pedido_id) as [pedido|]; [|done].
  case_decide; [|done].
  match goal with |- context [full_clean ?x ?d] => destruct (Hform d) as (errors & -> & _) end.
  done.
Qed.

Lemma cantidad_fuera_de_rango_rejected_witness :
  51 ≠ 0 ∧ (51 < 1 ∨ 50 < 51)
  ∧ (∃ errors,
       full_clean (mkItemPedidoData (Some 1) (Some 51) "") db_tacos = inr errors
       ∧ "cantidad" ∈ errors.*1)
  ∧ db (despues (agregar_item_pedido 7 0
                   (mkRequest "POST" None (mkItemPedidoData (Some 1) (Some 51) "")
                      (mkUser "ana" true ["mesero"]))
                   mundo_tacos))
    = db_tacos.
Proof.
  split; [lia|]. split; [lia|].
  exact (cantidad_fuera_de_rango_rejected 51 7 0
           (mkRequest "POST" None (mkItemPedidoData (Some 1) (Some 51) "")
              (mkUser "ana" true ["mesero"]))
           mundo_tacos ltac:(lia) ltac:(lia) eq_refl).
Defined.

End FormsProps.

(* ===================================================================== *)
(** * Properties of the notification fan-out                              *)
(* ===================================================================== *)

Section ObserversProps.
Import Py Models Observers.
Context {O : Type} `{EqDecision O} `{Observer O}.

Lemma agregar_observador_present o (s : PedidoSubject O) w :
  o ∈ _observadores s → agregar_observador o s w = (s, w).
Proof. intros Hin. rewrite /agregar_observador. by case_decide. Qed.

Lemma agregar_observador_absent o (s : PedidoSubject O) w :
  o ∉ _observadores s →
  pedido (agregar_observador o s w).1 = pedido s
  ∧ _observadores (agregar_observador o s w).1 = _observadores s ++ [o].
Proof. intros Hin. rewrite /agregar_observador. by case_decide. Qed.


(** The loop, when listeners raise nothing but instances of [Exception]:
    it ends normally, having invoked every listener of the list, in order. *)
Lemma entregar_all (obs : list O) p evento datos : ∀ w,
  (∀ o w' e, o ∈ obs →
     (actualizar o p evento datos w').1 = Raise e → is_Exception e = true) →
  resultado (entregar obs p evento datos w) = Ok ()
  ∧ llamadas (entregar obs p evento datos w)
    = map (λ o, mkLlamada o p evento datos) obs.
Proof.
  induction obs as [|o obs IH]; intros w Hexc; [done|].
  assert (∀ o' w' e, o' ∈ obs →
            (actualizar o' p evento datos w').1 = Raise e → is_Exception e = true)
    as Hexc' by (intros o' w' e Ho'; apply Hexc; by right).
  simpl. destruct (actualizar o p evento datos w) as [[[]|e] w'] eqn:Hact.
  - destruct (IH w' Hexc') as [-> ->]. done.
  - rewrite (Hexc o w e); [by left|by rewrite Hact|].
    destruct (IH (log ("Error al notificar " +:+ class_name o) p w') Hexc') as [-> ->].
    done.
Qed.

(** An exception outside [Exception] is not caught: it ends the loop. *)
Lemma entregar_base_exception o (obs : list O) p evento datos w e w' :
  actualizar o p evento datos w = (Raise e, w') → is_Exception e = false →
  resultado (entregar (o :: obs) p evento datos w) = Raise e
  ∧ llamadas (entregar (o :: obs) p evento datos w) = [mkLlamada o p evento datos].
Proof. intros Hact He. by rewrite /= Hact He. Qed.



(** [list.remove] on a list that contains the element: the first occurrence
    goes, everything else stays in place. *)
Lemma list_remove_spec (o : O) (l : list O) :
  o ∈ l → ∃ l1 l2, l = l1 ++ o :: l2 ∧ (o ∉ l1) ∧ list_remove o l = Ok (l1 ++ l2).
Proof.
  induction l as [|y l IH]; intros Hin; [by apply elem_of_nil in Hin|].
  simpl. destruct (decide (y = o)) as [->|Hne].
  - exists [], l. split; [done|]. split; [apply not_elem_of_nil|done].
  - apply elem_of_cons in Hin as [->|Hin]; [done|].
    destruct (IH Hin) as (l1 & l2 & -> & Hl1 & ->).
    exists (y :: l1), l2. split; [done|]. split; [|done].
    apply not_elem_of_cons. split; [congruence|done].
Qed.

(** C10.  [quitar_observador] with a listener that is not registered
    returns normally and changes neither the subject nor anything else; with
    a registered listener it removes that one entry (the first that equals
    it) and keeps the others in their order, and on a list without
    duplicates, as registration builds it, the listener is then gone. *)
Theorem quitar_observador_removes_one (o : O) (s : PedidoSubject O) (w : World) :
  (o ∉ _observadores s → quitar_observador o s w = (Ok s, w))
  ∧ (o ∈ _observadores s →
       ∃ l1 l2 w',
         _observadores s = l1 ++ o :: l2 ∧ (o ∉ l1)
         ∧ quitar_observador o s w = (Ok (mkSubject (pedido s) (l1 ++ l2)), w')
         ∧ (NoDup (_observadores s) → o ∉ l1 ++ l2)).
Proof.
  rewrite /quitar_observador. split; intros Hin; case_decide; try done.
  destruct (list_remove_spec o _ Hin) as (l1 & l2 & Heq & Hl1 & ->).
  exists l1, l2. eexists. split; [done|]. split; [done|]. split; [done|].
  rewrite Heq. intros Hnd. apply NoDup_app in Hnd as (_ & Hdis & Hnd).
  apply NoDup_cons in Hnd as [Ho _].
  apply not_elem_of_app. done.
Qed.

End ObserversProps.

(** ** The scenario of three listeners, the second of which fails *)

Section Oyentes.
Import Py Models Observers Escenarios.


(** L1, L2, L3 are invoked in this order, once each, although L2 raises;
    the error of L2 is logged and nothing reaches the caller. *)
Example tres_oyentes :
  let s := (registrar [L1; L2; L3] (nuevo_subject pedido_9 mundo_vacio)).1 in
  let r := notificar_observadores s "cambio_estado" None mundo_vacio in
  resultado r = Ok ()
  ∧ map a_observador (llamadas r) = [L1; L2; L3]
  ∧ errores r = [(L2, OtherException "RuntimeError")].
Proof. by vm_compute. Qed.

End Oyentes.

(* ===================================================================== *)
(** * Properties of the status-transition view                            *)
(* ===================================================================== *)

Section ViewsProps.
Import Py Models Observers Forms Views Escenarios.

Lemma agregar_observador_keeps {O : Type} `{EqDecision O} `{Observer O}
    (o : O) (s : PedidoSubject O) w :
  pedido (agregar_observador o s w).1 = pedido s
  ∧ db (agregar_observador o s w).2 = db w.
Proof. rewrite /agregar_observador. by case_decide. Qed.

(** Listeners that leave the database alone: so does the loop. *)
Lemma entregar_db {O : Type} `{Observer O} (obs : list O) p evento datos :
  (∀ o w, db (actualizar o p evento datos w).2 = db w) →
  ∀ w, db (mundo (entregar obs p evento datos w)) = db w.
Proof.
  intros Hdb. induction obs as [|o obs IH]; intros w; [done|].
  simpl. pose proof (Hdb o w) as Ho.
  destruct (actualizar o p evento datos w) as [[[]|e] w']; simpl in *.
  - by rewrite IH.
  - destruct (is_Exception e); simpl; [by rewrite IH|done].
Qed.

Lemma subscript_raises datos key e :
  subscript datos key = Raise e → is_Exception e = true.
Proof.
  rewrite /subscript. destruct datos as [d|]; [|by intros [= <-]].
  destruct (d !! key); [done|by intros [= <-]].
Qed.

Lemma cambio_a_raises evento datos s e :
  cambio_a evento datos s = Raise e → is_Exception e = true.
Proof.
  rewrite /cambio_a /estado_nuevo_es. case_decide; [|done].
  destruct (subscript datos "estado_nuevo") eqn:Hs; [done|].
  intros [= <-]. by apply subscript_raises in Hs.
Qed.

Lemma mostrar_items_spec rows p : ∀ w,
  db (mostrar_items rows p w).2 = db w
  ∧ ∀ e, (mostrar_items rows p w).1 = Raise e → is_Exception e = true.
Proof.
  induction rows as [|r rows IH]; intros w; [done|].
  simpl. destruct (platillos (db w) !! row_platillo r) as [pl|] eqn:Hpl.
  - destruct (IH (print (mkAviso "COCINA" (nombre pl) (pk p)) w)) as [Hdb Hexc].
    by rewrite Hdb.
  - split; [done|]. by intros e [= <-].
Qed.

Ltac listener_cases :=
  repeat match goal with
    | |- context [decide ?P] => destruct (decide P); simpl
    | |- context [cambio_a ?ev ?d ?s] =>
        let H := fresh "Hc" in
        destruct (cambio_a ev d s) as [[]|] eqn:H; simpl;
        try (apply cambio_a_raises in H)
    | |- context [subscript ?d ?k] =>
        let H := fresh "Hs" in
        destruct (subscript d k) as [[[]| |]|] eqn:H; simpl;
        try (apply subscript_raises in H)
    end.

(** The four concrete listeners only print: they leave the database as it
    is, and what they can raise is an [Exception]. *)
Lemma actualizar_concreto (o : Observador) p evento datos w :
  db (actualizar o p evento datos w).2 = db w
  ∧ ∀ e, (actualizar o p evento datos w).1 = Raise e → is_Exception e = true.
Proof.
  destruct o as [n []]; simpl.
  - rewrite /actualizar_cocina.
    destruct (cambio_a evento datos "pendiente") as [[]|] eqn:Hc; simpl.
    + destruct (mostrar_items_spec (item_set p (db w)) p
                  (print (mkAviso "COCINA" "NUEVO PEDIDO" (pk p)) w)) as [Hdb Hexc].
      simpl in Hdb.
      destruct (mostrar_items _ p _) as [[[]|e] w']; simpl in *; [done|].
      split; [done|]. intros e' [= <-]. by apply Hexc.
    + listener_cases; split; try done; by intros ? [= <-].
    + apply cambio_a_raises in Hc. split; [done|]. by intros ? [= <-].
  - rewrite /actualizar_mesero. listener_cases; split; try done; by intros ? [= <-].
  - rewrite /actualizar_administrador.
    listener_cases; split; try done; by intros ? [= <-].
  - rewrite /actualizar_email. listener_cases; split; try done; by intros ? [= <-].
Qed.

(** [cambiar_estado] with concrete listeners: the order is saved with the
    new status, whatever the old one was, and no exception comes back. *)
Lemma cambiar_estado_saves (s : PedidoSubject Observador) nuevo usuario ahora w :
  resultado (cambiar_estado nuevo usuario ahora s w).2 = Ok ()
  ∧ db (mundo (cambiar_estado nuevo usuario ahora s w).2)
    = save_pedido (with_estado nuevo (pedido s)) (db w).
Proof.
  rewrite /cambiar_estado /notificar_observadores /=. split.
  - apply entregar_all. intros o w' e _. apply actualizar_concreto.
  - rewrite entregar_db; [|done]. intros o w'. apply actualizar_concreto.
Qed.


Lemma ESTADOS_keys :
  ESTADOS.*1 = ["pendiente"; "en_preparacion"; "listo"; "entregado"; "cancelado"].
Proof. reflexivity. Qed.

(** C5.  An authorised POST to [cambiar_estado_pedido] for an existing
    order, whatever its current status: a target among the five status
    values replaces the stored status (all else in the database is
    unchanged) and the view reports success; any other target, or none,
    changes nothing in the database and reports "Estado inválido". *)
Theorem cambiar_estado_pedido_overwrites un_pk ahora request w pedido :
  is_authenticated (user request) = true →
  (∃ role, role ∈ ["mesero"; "admin"; "cocina"] ∧ role ∈ groups (user request)) →
  method request = "POST" →
  pedidos (db w) !! un_pk = Some pedido →
  pk pedido = un_pk →
  let out := cambiar_estado_pedido un_pk ahora request w in
  (∀ t, POST_estado request = Some t →
     t ∈ ["pendiente"; "en_preparacion"; "listo"; "entregado"; "cancelado"] →
     db (despues out)
     = mkDB (platillos (db w))
         (<[un_pk := with_estado t pedido]> (pedidos (db w))) (items (db w))
     ∧ estado <$> (pedidos (db (despues out)) !! un_pk) = Some t
     ∧ respuesta out = Redirect "restaurant:detalle_pedido"
     ∧ ∃ msg, mensajes out = [(Success, msg)])
  ∧ ((∀ t, POST_estado request = Some t →
        t ∉ ["pendiente"; "en_preparacion"; "listo"; "entregado"; "cancelado"]) →
     db (despues out) = db w
     ∧ respuesta out = Redirect "restaurant:detalle_pedido"
     ∧ mensajes out = [(Error, "Estado inválido")]).
Proof.
  intros Hauth (role & Hrole & Hgroup) Hpost Hped Hpk out.
  assert (existsb (λ role, bool_decide (role ∈ groups (user request)))
            ["mesero"; "admin"; "cocina"] = true) as Hperm.
  { apply existsb_exists. exists role. split; [by apply list_elem_of_In|].
    by apply bool_decide_eq_true. }
  assert (out = cambiar_estado_pedido_body un_pk ahora request
                  (print (mkAviso "DECORATOR" "Acceso autorizado: cambiar_estado_pedido" 0)
                     (print (mkAviso "DECORATOR LOG" "cambiar_estado_pedido" 0)
                        (print (mkAviso "DECORATOR LOG" "cambiar_estado_pedido" 0) w))))
    as ->.
  { rewrite /out /cambiar_estado_pedido /log_view_access /require_role
      /login_required Hauth. cbv beta zeta. by rewrite Hperm. }
  rewrite /cambiar_estado_pedido_body Hped.
  case_decide; [|done]. split.
  - intros t Ht Hin. rewrite Ht /estado_valido ESTADOS_keys bool_decide_eq_true_2 //.
    rewrite /nuevo_subject.
    set (w0 := log _ _ _).
    destruct (agregar_observador_keeps (mkObservador 1 CocinaObserver)
                (mkSubject pedido []) w0) as [Hp1 Hd1].
    destruct (agregar_observador _ (mkSubject pedido []) w0) as [s1 w1].
    destruct (agregar_observador_keeps (mkObservador 2 MeseroObserver) s1 w1)
      as [Hp2 Hd2].
    destruct (agregar_observador _ s1 w1) as [s2 w2].
    destruct (agregar_observador_keeps (mkObservador 3 AdministradorObserver) s2 w2)
      as [Hp3 Hd3].
    destruct (agregar_observador _ s2 w2) as [s3 w3].
    simpl in Hp1, Hd1, Hp2, Hd2, Hp3, Hd3.
    destruct (cambiar_estado_saves s3 t (Some (username (user request))) ahora w3)
      as [Hres Hdb].
    destruct (cambiar_estado t _ ahora s3 w3) as [s4 r]. simpl in Hres, Hdb.
    rewrite Hres /= Hdb Hd3 Hd2 Hd1 Hp3 Hp2 Hp1 /save_pedido /= Hpk.
    split; [done|]. split; [by rewrite lookup_insert_eq|]. split; [done|]. by eexists.
  - intros Hnot. destruct (POST_estado request) as [t|] eqn:Ht; [|done].
    rewrite /estado_valido ESTADOS_keys bool_decide_eq_false_2 //. by apply Hnot.
Qed.

Lemma cambiar_estado_pedido_overwrites_witness :
  is_authenticated (user pide_pendiente) = true
  ∧ (∃ role, role ∈ ["mesero"; "admin"; "cocina"] ∧ role ∈ groups (user pide_pendiente))
  ∧ method pide_pendiente = "POST"
  ∧ pedidos (db mundo_entregado) !! 7 = Some pedido_entregado
  ∧ pk pedido_entregado = 7
  ∧ let out := cambiar_estado_pedido 7 0 pide_pendiente mundo_entregado in
    (∀ t, POST_estado pide_pendiente = Some t →
       t ∈ ["pendiente"; "en_preparacion"; "listo"; "entregado"; "cancelado"] →
       db (despues out)
       = mkDB (platillos (db mundo_entregado))
           (<[7 := with_estado t pedido_entregado]> (pedidos (db mundo_entregado)))
           (items (db mundo_entregado))
       ∧ estado <$> (pedidos (db (despues out)) !! 7) = Some t
       ∧ respuesta out = Redirect "restaurant:detalle_pedido"
       ∧ ∃ msg, mensajes out = [(Success, msg)])
    ∧ ((∀ t, POST_estado pide_pendiente = Some t →
          t ∉ ["pendiente"; "en_preparacion"; "listo"; "entregado"; "cancelado"]) →
       db (despues out) = db mundo_entregado
       ∧ respuesta out = Redirect "restaurant:detalle_pedido"
       ∧ mensajes out = [(Error, "Estado inválido")]).
Proof.
  assert (∃ role, role ∈ ["mesero"; "admin"; "cocina"]
                  ∧ role ∈ groups (user pide_pendiente)) as Hrole.
  { exists "mesero". split; by apply (bool_decide_unpack _). }
  split; [reflexivity|]. split; [exact Hrole|]. split; [reflexivity|].
  split; [reflexivity|]. split; [reflexivity|].
  exact (cambiar_estado_pedido_overwrites 7 0 pide_pendiente mundo_entregado
           pedido_entregado eq_refl Hrole eq_refl eq_refl eq_refl).
Defined.

(** From the terminal status "entregado" back to "pendiente": accepted. *)
Example entregado_a_pendiente :
  let out := cambiar_estado_pedido 7 0 pide_pendiente mundo_entregado in
  estado <$> (pedidos (db (despues out)) !! 7) = Some "pendiente"
  ∧ mensajes out = [(Success, "Estado del pedido actualizado a: Pendiente")].
Proof. by vm_compute. Qed.

(** A value that is no status is refused and the order stays delivered. *)
Example estado_desconocido :
  let request := mkRequest "POST" (Some "volando") (mkItemPedidoData None None "")
                   (mkUser "ana" true ["mesero"]) in
  let out := cambiar_estado_pedido 7 0 request mundo_entregado in
  estado <$> (pedidos (db (despues out)) !! 7) = Some "entregado"
  ∧ mensajes out = [(Error, "Estado inválido")].
Proof. by vm_compute. Qed.

End ViewsProps.

(* ===================================================================== *)
(** * Properties of the configuration file and of the holder's clients    *)
(* ===================================================================== *)

From Stdlib Require Import Qpower.

Section ConfigFileProps.
Import Py Config ConfigFile Escenarios.

(** The first initialisation leaves the defaults, overlaid with the pairs
    of the file. *)
Lemma first_init_holds self file st :
  is_Some (heap st !! self) → _initialized st = false →
  holds (__init__ self file st) self (al_iniciar file).
Proof.
  intros [o Hself] Hinit. rewrite /__init__ Hinit.
  set (d := fresh (dom (heap st))).
  assert (d ≠ self) as Hne by by apply (fresh_differs _ _ o).
  set (st1 := set_heap _ st).
  assert (heap st1 !! self = Some (Instance (Some d))) as Hs
    by (rewrite /st1 /=; by simplify_map_eq).
  assert (heap st1 !! d = Some (Dict default_config)) as Hd
    by (rewrite /st1 /=; by simplify_map_eq).
  destruct file as [fc|]; simpl.
  - rewrite /_load_from_file /get_config_attr Hs /read_dict Hd /=.
    exists d. rewrite /st1 /=. by simplify_map_eq.
  - by exists d.
Qed.

Lemma first_call_holds file st :
  wf st → _initialized st = false →
  holds (RestaurantConfig file st).2 (RestaurantConfig file st).1 (al_iniciar file).
Proof.
  rewrite /wf /RestaurantConfig /__new__. intros Hwf Hinit.
  destruct (_instance st) as [self|] eqn:Hinst.
  - rewrite Hinit in Hwf. destruct Hwf as [c Hs]. simpl.
    apply first_init_holds; [rewrite Hs; by eexists|done].
  - simpl. apply first_init_holds; [|done]. rewrite /= lookup_insert_eq. by eexists.
Qed.

(** X6.  The first call of [RestaurantConfig()] in a process: every key
    reads as the file gives it when the file has the key, whatever the value
    (no setter, so no validation, is involved), and as the default
    configuration gives it otherwise. *)
Theorem first_call_overlays_file file st key :
  wf st → _initialized st = false →
  getitem (RestaurantConfig file st).1 key (RestaurantConfig file st).2 =
    match file ≫= (λ file_config, file_config !! key) with
    | Some v => Ok v
    | None =>
        match default_config !! key with
        | Some v => Ok v
        | None => Raise (KeyError key)
        end
    end.
Proof.
  intros Hwf Hinit.
  rewrite (holds_getitem _ _ _ key (first_call_holds file st Hwf Hinit)).
  destruct file as [fc|]; simpl; [|done].
  rewrite lookup_union. destruct (fc !! key) eqn:Hk; simpl;
    by destruct (default_config !! key).
Qed.

Lemma first_call_overlays_file_witness :
  wf process_start ∧ _initialized process_start = false
  ∧ getitem (RestaurantConfig (Some {["impuesto" := VStr "16%"]}) process_start).1
      "impuesto" (RestaurantConfig (Some {["impuesto" := VStr "16%"]}) process_start).2 =
    match Some {["impuesto" := VStr "16%"]} ≫= (λ file_config : PyDict, file_config !! "impuesto") with
    | Some v => Ok v
    | None =>
        match default_config !! "impuesto" with
        | Some v => Ok v
        | None => Raise (KeyError "impuesto")
        end
    end.
Proof.
  assert (wf process_start) as Hwf by reflexivity.
  assert (_initialized process_start = false) as Hinit by reflexivity.
  split; [exact Hwf|]. split; [exact Hinit|].
  exact (first_call_overlays_file (Some {["impuesto" := VStr "16%"]}) process_start
           "impuesto" Hwf Hinit).
Defined.

(** The two guards of the validating setters, by value. *)
Lemma between_unit_iff v : between 0 v 1 = Ok true ↔ in_unit_interval v.
Proof.
  destruct (as_num v) as [x|] eqn:Hx.
  - split; [|by apply (between_unit v x Hx)].
    rewrite /between /int_le /le_int Hx.
    destruct (num_value x) as [| |q|] eqn:Hv; simpl; try done.
    change (inject_Z 0) with 0%Q. change (inject_Z 1) with 1%Q.
    destruct (Qle_bool 0 q) eqn:H0; [|done].
    destruct (Qle_bool q 1) eqn:H1; [|done].
    intros _. exists x, q. by rewrite -!Qle_bool_iff.
  - rewrite (between_not_number 0 v 1 Hx). split; [done|].
    intros (x & q & ? & _). congruence.
Qed.

Lemma gt_int_positive v : gt_int v 0 = Ok true ↔ positive v.
Proof.
  rewrite /gt_int /positive. destruct (as_num v) as [x|]; last first.
  { split; [done|]. by intros (x & ? & _). }
  change (inject_Z 0) with 0%Q. split.
  - intros Hg. exists x. split; [done|].
    destruct (num_value x) as [| |q|]; simpl in Hg; try done; [|by left].
    right. exists q. split; [done|].
    injection Hg as Hg. apply negb_true_iff in Hg.
    apply Qnot_le_lt. rewrite -Qle_bool_iff. by rewrite Hg.
  - intros (x' & [= <-] & [Hv | (q & Hv & Hq)]); rewrite Hv /=; [done|].
    f_equal. apply negb_true_iff, not_true_is_false.
    rewrite Qle_bool_iff. by apply Qlt_not_le.
Qed.


Lemma between_raises lo v hi e : between lo v hi = Raise e → e = TypeError.
Proof.
  rewrite /between /int_le /le_int.
  destruct (as_num v); [|by intros [= <-]]. by destruct (extq_le _ _).
Qed.

(** A validating setter stores the value when its guard holds and leaves
    the state alone otherwise. *)
Lemma guarded_set_spec guard st self m key v :
  holds st self m →
  match guard with
  | Ok true =>
      ∃ st', guarded_set guard self key v st = (Ok Updated, st')
             ∧ holds st' self (<[key := v]> m)
             ∧ _instance st' = _instance st ∧ _initialized st' = _initialized st
             ∧ st' = (setitem self key v st).2
  | Ok false => guarded_set guard self key v st = (Ok Rejected, st)
  | Raise e => guarded_set guard self key v st = (Raise e, st)
  end.
Proof.
  intros Hh. destruct guard as [[|]|e]; [|done|done].
  destruct (holds_setitem st self m key v Hh) as (st' & Heq & Hh' & Hi & Hb).
  exists st'. by rewrite /guarded_set Heq.
Qed.



(** X8.  [set_propina_sugerida] on an initialised holder: a number whose
    value lies in [0, 1] is stored as the suggested tip (and read back by
    [get_propina_sugerida]); any other argument leaves the state exactly as
    it was, through the error branch or the [TypeError] of the comparison. *)
Theorem set_propina_sugerida_validates st self m v :
  holds st self m →
  (in_unit_interval v →
     ∃ st', set_propina_sugerida self v st = (Ok Updated, st')
            ∧ holds st' self (<["propina_sugerida" := v]> m)
            ∧ get_propina_sugerida self st' = Ok v)
  ∧ (¬ in_unit_interval v →
     ∃ r, set_propina_sugerida self v st = (r, st)
          ∧ (r = Ok Rejected ∨ r = Raise TypeError)).
Proof.
  intros Hh. rewrite /set_propina_sugerida.
  pose proof (guarded_set_spec (between 0 v 1) st self m "propina_sugerida" v Hh) as Hg.
  pose proof (between_unit_iff v) as Hiff.
  destruct (between 0 v 1) as [[|]|e] eqn:Hgt.
  - destruct Hg as (st' & -> & Hh' & _). split.
    + intros _. exists st'. split; [done|]. split; [done|].
      by rewrite /get_propina_sugerida (holds_getitem st' self _ _ Hh') lookup_insert_eq.
    + intros Hn. destruct Hn. by apply Hiff.
  - rewrite Hg. split.
    + intros Hp. apply Hiff in Hp. done.
    + intros _. exists (Ok Rejected). by split; [|left].
  - rewrite Hg. split.
    + intros Hp. apply Hiff in Hp. done.
    + intros _. exists (Raise e). split; [done|]. right.
      by rewrite (between_raises 0 v 1 e Hgt).
Qed.

Lemma set_propina_sugerida_validates_witness :
  holds recien_creado 0%nat default_config
  ∧ ∃ st', set_propina_sugerida 0%nat (VFloat 0.5) recien_creado = (Ok Updated, st')
           ∧ holds st' 0%nat (<["propina_sugerida" := VFloat 0.5]> default_config)
           ∧ get_propina_sugerida 0%nat st' = Ok (VFloat 0.5).
Proof.
  assert (holds recien_creado 0%nat default_config) as Hh
    by (exists 1%nat; split; reflexivity).
  split; [exact Hh|].
  apply (set_propina_sugerida_validates recien_creado 0%nat default_config (VFloat 0.5) Hh).
  eexists _, _. split; [reflexivity|]. split; [by vm_compute|]. split; by vm_compute.
Defined.

Lemma getitem_after_setitem st self m key v key' :
  holds st self m → key' ≠ key →
  getitem self key' (setitem self key v st).2 = getitem self key' st.
Proof.
  intros Hh Hne.
  destruct (holds_setitem st self m key v Hh) as (st' & -> & Hh' & _).
  rewrite (holds_getitem _ _ _ key' Hh') (holds_getitem _ _ _ key' Hh) /=.
  by simplify_map_eq.
Qed.

Lemma getitem_after_guarded_set guard st self m key v key' :
  holds st self m → key' ≠ key →
  getitem self key' (guarded_set guard self key v st).2 = getitem self key' st.
Proof.
  intros Hh Hne.
  pose proof (guarded_set_spec guard st self m key v Hh) as Hg.
  destruct guard as [[|]|e]; [|by rewrite Hg..].
  destruct Hg as (st' & -> & _ & _ & _ & ->).
  by apply (getitem_after_setitem st self m).
Qed.

(** X9.  Each of the five setters writes at most the key it is named
    after: every other key of an initialised holder reads after the call
    as it did before, whatever the argument and whether or not it was
    accepted. *)
Theorem setters_write_one_key st self m v key :
  holds st self m →
  (key ≠ "nombre_restaurante" →
     getitem self key (set_nombre_restaurante self v st).2 = getitem self key st)
  ∧ (key ≠ "impuesto" →
     getitem self key (Config.set_impuesto self v st).2 = getitem self key st)
  ∧ (key ≠ "propina_sugerida" →
     getitem self key (set_propina_sugerida self v st).2 = getitem self key st)
  ∧ (key ≠ "horario" →
     getitem self key (set_horario self v st).2 = getitem self key st)
  ∧ (key ≠ "capacidad_maxima" →
     getitem self key (set_capacidad_maxima self v st).2 = getitem self key st).
Proof.
  intros Hh. split; [|split; [|split; [|split]]]; intros Hne.
  - by apply (getitem_after_setitem st self m).
  - by apply (getitem_after_guarded_set _ st self m).
  - by apply (getitem_after_guarded_set _ st self m).
  - by apply (getitem_after_setitem st self m).
  - by apply (getitem_after_guarded_set _ st self m).
Qed.

Lemma setters_write_one_key_witness :
  holds recien_creado 0%nat default_config
  ∧ ("horario" ≠ "nombre_restaurante" →
     getitem 0%nat "horario" (set_nombre_restaurante 0%nat (VStr "Fonda") recien_creado).2
     = getitem 0%nat "horario" recien_creado)
  ∧ ("horario" ≠ "impuesto" →
     getitem 0%nat "horario" (Config.set_impuesto 0%nat (VStr "Fonda") recien_creado).2
     = getitem 0%nat "horario" recien_creado)
  ∧ ("horario" ≠ "propina_sugerida" →
     getitem 0%nat "horario" (set_propina_sugerida 0%nat (VStr "Fonda") recien_creado).2
     = getitem 0%nat "horario" recien_creado)
  ∧ ("horario" ≠ "horario" →
     getitem 0%nat "horario" (set_horario 0%nat (VStr "Fonda") recien_creado).2
     = getitem 0%nat "horario" recien_creado)
  ∧ ("horario" ≠ "capacidad_maxima" →
     getitem 0%nat "horario" (set_capacidad_maxima 0%nat (VStr "Fonda") recien_creado).2
     = getitem 0%nat "horario" recien_creado).
Proof.
  assert (holds recien_creado 0%nat default_config) as Hh
    by (exists 1%nat; split; reflexivity).
  split; [exact Hh|].
  exact (setters_write_one_key recien_creado 0%nat default_config (VStr "Fonda") "horario" Hh).
Defined.

(** ** The holder under arbitrary client code *)

Lemma en_regla_default : en_regla default_config.
Proof.
  split; [done|]. split; [|split].
  - exists (VFloat 0.16). split; [reflexivity|].
    eexists _, _. split; [reflexivity|]. split; [by vm_compute|]. split; by vm_compute.
  - exists (VFloat 0.15). split; [reflexivity|].
    eexists _, _. split; [reflexivity|]. split; [by vm_compute|]. split; by vm_compute.
  - exists (VInt 80). split; [reflexivity|].
    exists (NInt 80). split; [reflexivity|]. right. by exists (inject_Z 80).
Qed.

Lemma en_regla_al_iniciar file :
  (∀ fc, file = Some fc → en_regla fc) → en_regla (al_iniciar file).
Proof.
  destruct file as [fc|]; simpl; [|intros _; apply en_regla_default].
  intros Hfc. destruct (Hfc fc eq_refl) as (Hkeys & (i & Hi & ?) & (p & Hp & ?) & (c & Hc & ?)).
  split; [|split; [|split]].
  - intros key Hk. destruct (Hkeys key Hk) as [v Hv].
    exists v. by apply lookup_union_Some_l.
  - exists i. split; [by apply lookup_union_Some_l|done].
  - exists p. split; [by apply lookup_union_Some_l|done].
  - exists c. split; [by apply lookup_union_Some_l|done].
Qed.

Lemma en_regla_insert m key v :
  en_regla m →
  (key = "impuesto" → in_unit_interval v) →
  (key = "propina_sugerida" → in_unit_interval v) →
  (key = "capacidad_maxima" → positive v) →
  en_regla (<[key := v]> m).
Proof.
  intros (Hkeys & (i & Hi & Hiv) & (p & Hp & Hpv) & (c & Hc & Hcv)) H1 H2 H3.
  split; [|split; [|split]].
  - intros k Hk. rewrite lookup_insert_is_Some.
    destruct (decide (key = k)); [by left|right]. split; [done|by apply Hkeys].
  - destruct (decide (key = "impuesto")) as [->|].
    + exists v. split; [by simplify_map_eq|by apply H1].
    + exists i. split; [by simplify_map_eq|done].
  - destruct (decide (key = "propina_sugerida")) as [->|].
    + exists v. split; [by simplify_map_eq|by apply H2].
    + exists p. split; [by simplify_map_eq|done].
  - destruct (decide (key = "capacidad_maxima")) as [->|].
    + exists v. split; [by simplify_map_eq|by apply H3].
    + exists c. split; [by simplify_map_eq|done].
Qed.

(** Calling the class in a system that is in order yields an initialised
    holder whose pairs are in order. *)
Lemma acquire_en_orden s :
  en_orden s →
  wf (RestaurantConfig (json_load (archivo s)) (proceso s)).2
  ∧ _instance (RestaurantConfig (json_load (archivo s)) (proceso s)).2
    = Some (RestaurantConfig (json_load (archivo s)) (proceso s)).1
  ∧ _initialized (RestaurantConfig (json_load (archivo s)) (proceso s)).2 = true
  ∧ ∃ m, holds (RestaurantConfig (json_load (archivo s)) (proceso s)).2
           (RestaurantConfig (json_load (archivo s)) (proceso s)).1 m
         ∧ en_regla m.
Proof.
  intros (Hwf & Hholder & Hfile).
  split; [by apply wf_RestaurantConfig|].
  destruct (RestaurantConfig_marks (json_load (archivo s)) (proceso s)) as [Hb Hi].
  do 2 (split; [done|]).
  destruct (_initialized (proceso s)) eqn:Hinit.
  - destruct (_instance (proceso s)) as [self|] eqn:Hinst.
    + rewrite (RestaurantConfig_again _ _ self Hinst Hinit) /=. by apply Hholder.
    + rewrite /wf Hinst in Hwf. congruence.
  - exists (al_iniciar (json_load (archivo s))). split; [by apply first_call_holds|].
    apply en_regla_al_iniciar. intros fc Hfc. apply Hfile.
    by destruct (archivo s); simplify_eq/=.
Qed.

Lemma wf_alloc st l o :
  wf st → heap st !! l = None → wf (set_heap (<[l := o]> (heap st)) st).
Proof.
  rewrite /wf /=. intros Hwf Hl.
  destruct (_instance st) as [self|]; [|done].
  destruct (_initialized st).
  - destruct Hwf as (d & m & Hs & Hd). exists d, m.
    assert (l ≠ self) by congruence. assert (l ≠ d) by congruence.
    by simplify_map_eq.
  - destruct Hwf as [c Hs]. exists c. assert (l ≠ self) by congruence.
    by simplify_map_eq.
Qed.

Lemma wf_mutate_all l ops st : wf st → wf (mutate_all l ops st).
Proof.
  rewrite /mutate_all. revert st.
  induction ops as [|op ops IH]; intros st Hwf; [done|].
  by apply IH, wf_mutate.
Qed.

Lemma mutate_all_class l ops st :
  _instance (mutate_all l ops st) = _instance st
  ∧ _initialized (mutate_all l ops st) = _initialized st.
Proof.
  rewrite /mutate_all. revert st.
  induction ops as [|op ops IH]; intros st; [done|]. simpl.
  destruct (IH (mutate l op st)) as [-> ->]. rewrite /mutate.
  by destruct (heap st !! l) as [[]|].
Qed.

(** The dictionary of [get_all_config] is a new object: whatever is done
    to it, the holder and the class stay as they are. *)
Lemma get_all_config_apart st self m ops :
  wf st → holds st self m →
  ∃ copia st', get_all_config self st = (Ok copia, st')
    ∧ wf (mutate_all copia ops st')
    ∧ holds (mutate_all copia ops st') self m
    ∧ _instance (mutate_all copia ops st') = _instance st
    ∧ _initialized (mutate_all copia ops st') = _initialized st.
Proof.
  intros Hwf (d & Hs & Hd).
  set (copia := fresh (dom (heap st))).
  assert (copia ≠ d) by by apply (fresh_differs _ _ (Dict m)).
  assert (copia ≠ self) by by apply (fresh_differs _ _ (Instance (Some d))).
  exists copia, (set_heap (<[copia := Dict m]> (heap st)) st).
  rewrite /get_all_config /get_config_attr Hs /read_dict Hd /=.
  split; [done|].
  set (st' := set_heap _ st).
  assert (heap st' !! self = Some (Instance (Some d))) as Hs'
    by (rewrite /st' /=; by simplify_map_eq).
  assert (heap st' !! d = Some (Dict m)) as Hd'
    by (rewrite /st' /=; by simplify_map_eq).
  destruct (mutate_all_elsewhere copia ops st' self d m Hs' Hd') as [Hs'' Hd'']; [done|].
  destruct (mutate_all_class copia ops st') as [-> ->].
  split; [|split; [by exists d|done]].
  apply wf_mutate_all, wf_alloc; [done|apply fresh_unused].
Qed.

Lemma save_to_file_holds st self m :
  holds st self m →
  (map_Forall (λ _ v, json_serializable v = true) m →
     save_to_file self st = Documento m)
  ∧ (¬ map_Forall (λ _ v, json_serializable v = true) m →
     save_to_file self st = Ilegible).
Proof.
  intros Hh. rewrite /save_to_file (holds_stored st self m Hh).
  by split; intros Hm; [rewrite decide_True|rewrite decide_False].
Qed.

(** A method call on an acquired holder keeps the system in order. *)
Lemma llamar_en_orden met config st a m :
  wf st → _instance st = Some config → _initialized st = true →
  holds st config m → en_regla m →
  (∀ pares, a = Documento pares → en_regla pares) →
  en_orden (llamar met config (mkSistema st a)).
Proof.
  intros Hwf Hi Hb Hh Hm Hfile.
  assert (∀ st' m', wf st' → _instance st' = _instance st →
            _initialized st' = _initialized st → holds st' config m' → en_regla m' →
            en_orden (mkSistema st' a)) as Hkeep.
  { intros st' m' Hwf' Hi' Hb' Hh' Hm'. split; [done|]. split; [|done].
    simpl. intros self Hself _. exists m'. split; [|done].
    rewrite Hi' Hi in Hself. by injection Hself as <-. }
  assert (∀ key v, (key = "impuesto" → in_unit_interval v) →
            (key = "propina_sugerida" → in_unit_interval v) →
            (key = "capacidad_maxima" → positive v) →
            en_orden (mkSistema (setitem config key v st).2 a)) as Hset.
  { intros key v H1 H2 H3.
    destruct (holds_setitem st config m key v Hh) as (st' & Heq & Hh' & Hi' & Hb').
    pose proof (wf_setitem config key v st Hwf) as Hwf'. rewrite Heq in Hwf'.
    rewrite Heq. apply (Hkeep _ (<[key := v]> m)); try done.
    by apply en_regla_insert. }
  assert (∀ guard key v, (guard = Ok true → key = "impuesto" → in_unit_interval v) →
            (guard = Ok true → key = "propina_sugerida" → in_unit_interval v) →
            (guard = Ok true → key = "capacidad_maxima" → positive v) →
            en_orden (mkSistema (guarded_set guard config key v st).2 a)) as Hguard.
  { intros guard key v H1 H2 H3.
    pose proof (guarded_set_spec guard st config m key v Hh) as Hg.
    destruct guard as [[|]|e]; [|rewrite Hg; by apply (Hkeep _ m)..].
    destruct Hg as (st' & -> & _ & _ & _ & ->). apply Hset; auto. }
  destruct met as [v|v|v|v|v|ops|]; simpl.
  - by apply Hset.
  - apply Hguard; [|done..]. intros Hg _. by apply between_unit_iff.
  - apply Hguard; [done| |done]. intros Hg _. by apply between_unit_iff.
  - by apply Hset.
  - apply Hguard; [done..|]. intros Hg _. by apply gt_int_positive.
  - destruct (get_all_config_apart st config m ops Hwf Hh)
      as (copia & st' & -> & Hwf' & Hh' & Hi' & Hb').
    by apply (Hkeep _ m).
  - split; [done|]. split.
    + simpl. intros self Hself _. exists m. split; [|done].
      rewrite Hi in Hself. by injection Hself as <-.
    + simpl. destruct (save_to_file_holds st config m Hh) as [Hyes Hno].
      destruct (decide (map_Forall (λ _ v, json_serializable v = true) m)) as [Hser|Hser].
      * rewrite (Hyes Hser). by intros pares [= <-].
      * by rewrite (Hno Hser).
Qed.

Lemma paso_en_orden x s : en_orden s → en_orden (paso x s).
Proof.
  intros Hs. destruct x as [met|]; simpl.
  - destruct (acquire_en_orden s Hs) as (Hwf & Hi & Hb & m & Hh & Hm).
    destruct (RestaurantConfig _ _) as [config st]. simpl in *.
    apply (llamar_en_orden met config st (archivo s) m); try done.
    by destruct Hs as (_ & _ & Hfile).
  - destruct Hs as (_ & _ & Hfile). by split; [|split].
Qed.

Lemma correr_en_orden xs s : en_orden s → en_orden (correr xs s).
Proof.
  rewrite /correr. revert s.
  induction xs as [|x xs IH]; intros s Hs; [done|].
  by apply IH, paso_en_orden.
Qed.

Lemma arranque_en_orden : en_orden arranque.
Proof. by split; [|split]. Qed.

(** X10.  Whatever the client code does from the first start on (any
    sequence of setter calls with any arguments, [get_all_config] followed
    by any mutation of the dictionary it returns, [save_to_file], restarts
    of the process), the holder that [RestaurantConfig()] then returns
    answers every key of the default configuration without [KeyError], its
    two rates are numbers in [0, 1] and its capacity is above zero. *)
Theorem holder_stays_in_order (xs : list Accion) :
  let s := correr xs arranque in
  let '(config, st) := RestaurantConfig (json_load (archivo s)) (proceso s) in
  (∀ key, is_Some (default_config !! key) → ∃ v, getitem config key st = Ok v)
  ∧ (∃ v, get_impuesto config st = Ok v ∧ in_unit_interval v)
  ∧ (∃ v, get_propina_sugerida config st = Ok v ∧ in_unit_interval v)
  ∧ (∃ v, get_capacidad_maxima config st = Ok v ∧ positive v).
Proof.
  simpl.
  destruct (acquire_en_orden _ (correr_en_orden xs arranque arranque_en_orden))
    as (_ & _ & _ & m & Hh & Hkeys & (i & Hi & ?) & (p & Hp & ?) & (c & Hc & ?)).
  destruct (RestaurantConfig _ _) as [config st]. simpl in Hh.
  split; [|split; [|split]].
  - intros key Hk. destruct (Hkeys key Hk) as [v Hv]. exists v.
    by rewrite (holds_getitem st config m key Hh) Hv.
  - exists i. by rewrite /get_impuesto (holds_getitem st config m _ Hh) Hi.
  - exists p. by rewrite /get_propina_sugerida (holds_getitem st config m _ Hh) Hp.
  - exists c. by rewrite /get_capacidad_maxima (holds_getitem st config m _ Hh) Hc.
Qed.

(** A run: the rate is set to 8 %, a refused value and a mutated copy do
    not disturb it, and it survives a restart through the file. *)
Example holder_run :
  let s := correr [Llamar (MSetImpuesto (VFloat 0.08));
                   Llamar (MSetImpuesto (VInt 2));
                   Llamar (MGetAll [Clear]);
                   Llamar MSaveToFile;
                   Reiniciar] arranque in
  let '(config, st) := RestaurantConfig (json_load (archivo s)) (proceso s) in
  get_impuesto config st = Ok (VFloat 0.08).
Proof. reflexivity. Qed.

(** X11.  [save_to_file] followed by a new process: when no stored value
    is one that [json.dump] refuses, the file holds exactly the stored
    pairs, and the holder of the new process reads every one of them as it
    was stored. *)
Theorem save_to_file_round_trip st self m :
  holds st self m →
  map_Forall (λ _ v, json_serializable v = true) m →
  save_to_file self st = Documento m
  ∧ let '(config, st') :=
      RestaurantConfig (json_load (save_to_file self st)) process_start in
    holds st' config (m ∪ default_config)
    ∧ ∀ key v, m !! key = Some v → getitem config key st' = Ok v.
Proof.
  intros Hh Hser. rewrite (proj1 (save_to_file_holds st self m Hh) Hser).
  split; [done|]. change (json_load (Documento m)) with (Some m).
  pose proof (first_call_holds (Some m) process_start wf_process_start eq_refl) as Hh'.
  destruct (RestaurantConfig _ _) as [config st']. simpl in Hh'.
  split; [done|]. intros key v Hkv.
  rewrite (holds_getitem st' config _ key Hh').
  by rewrite (lookup_union_Some_l _ _ _ _ Hkv).
Qed.

Lemma save_to_file_round_trip_witness :
  holds recien_creado 0%nat default_config
  ∧ map_Forall (λ _ v, json_serializable v = true) default_config
  ∧ save_to_file 0%nat recien_creado = Documento default_config
  ∧ let '(config, st') :=
      RestaurantConfig (json_load (save_to_file 0%nat recien_creado)) process_start in
    holds st' config (default_config ∪ default_config)
    ∧ ∀ key v, default_config !! key = Some v → getitem config key st' = Ok v.
Proof.
  assert (holds recien_creado 0%nat default_config) as Hh
    by (exists 1%nat; split; reflexivity).
  assert (map_Forall (λ _ v, json_serializable v = true) default_config) as Hser
    by (apply (bool_decide_unpack _); vm_compute; reflexivity).
  split; [exact Hh|]. split; [exact Hser|].
  exact (save_to_file_round_trip recien_creado 0%nat default_config Hh Hser).
Defined.

(** X12.  [save_to_file] while a value that [json.dump] refuses is stored
    (a [Decimal], which is what a fractional rate has to be for
    [calcular_totales] to end normally on an order with line items): the
    file is left cut short, and the next process, which cannot read it,
    starts from the default configuration. *)
Theorem save_to_file_refused_value st self m key v :
  holds st self m → m !! key = Some v → json_serializable v = false →
  save_to_file self st = Ilegible
  ∧ let '(config, st') :=
      RestaurantConfig (json_load (save_to_file self st)) process_start in
    holds st' config default_config.
Proof.
  intros Hh Hkv Hv.
  assert (¬ map_Forall (λ _ v, json_serializable v = true) m) as Hser.
  { intros Hall. specialize (Hall key v Hkv). simpl in Hall. congruence. }
  rewrite (proj2 (save_to_file_holds st self m Hh) Hser).
  split; [done|]. change (json_load Ilegible) with (@None PyDict).
  pose proof (first_call_holds None process_start wf_process_start eq_refl) as Hh'.
  by destruct (RestaurantConfig _ _) as [config st'].
Qed.

Lemma save_to_file_refused_value_witness :
  holds con_tasa_decimal 0%nat (<["impuesto" := VDecimal (mkDecimal 16 (-2))]> default_config)
  ∧ (<["impuesto" := VDecimal (mkDecimal 16 (-2))]> default_config : PyDict) !! "impuesto"
    = Some (VDecimal (mkDecimal 16 (-2)))
  ∧ json_serializable (VDecimal (mkDecimal 16 (-2))) = false
  ∧ save_to_file 0%nat con_tasa_decimal = Ilegible
  ∧ let '(config, st') :=
      RestaurantConfig (json_load (save_to_file 0%nat con_tasa_decimal)) process_start in
    holds st' config default_config.
Proof.
  assert (holds con_tasa_decimal 0%nat
            (<["impuesto" := VDecimal (mkDecimal 16 (-2))]> default_config)) as Hh
    by (exists 1%nat; split; reflexivity).
  assert ((<["impuesto" := VDecimal (mkDecimal 16 (-2))]> default_config : PyDict)
            !! "impuesto" = Some (VDecimal (mkDecimal 16 (-2)))) as Hk by reflexivity.
  assert (json_serializable (VDecimal (mkDecimal 16 (-2))) = false) as Hv by reflexivity.
  split; [exact Hh|]. split; [exact Hk|]. split; [exact Hv|].
  exact (save_to_file_refused_value con_tasa_decimal 0%nat _ "impuesto" _ Hh Hk Hv).
Defined.

End ConfigFileProps.

(* ===================================================================== *)
(** * Properties of subscription and routing                              *)
(* ===================================================================== *)

Section SuscripcionesProps.
Import Py Models Observers Suscripciones.
Context {O : Type} `{EqDecision O} `{Observer O}.

Lemma app_singleton_split {A} (l l1 l2 : list A) (x y : A) :
  l ++ [x] = l1 ++ y :: l2 →
  (l2 = [] ∧ l = l1 ∧ x = y) ∨ (∃ l2', l2 = l2' ++ [x] ∧ l = l1 ++ y :: l2').
Proof.
  destruct l2 as [|z l2 _] using rev_ind.
  - intros Heq. apply app_inj_tail in Heq as [-> ->]. by left.
  - intros Heq. right. exists l2.
    change (l ++ [x] = l1 ++ (y :: l2) ++ [z]) in Heq.
    rewrite app_assoc in Heq. apply app_inj_tail in Heq as [-> ->]. done.
Qed.

Lemma log_keeps texto p w : db (log texto p w) = db w ∧ cfg (log texto p w) = cfg w.
Proof. done. Qed.

(** One call to [agregar_observador] or [quitar_observador] on a list
    without duplicates. *)
Lemma aplicar_spec (op : Operacion O) (s : PedidoSubject O) w :
  NoDup (_observadores s) →
  ∃ s' w', aplicar op (Ok s, w) = (Ok s', w')
    ∧ pedido s' = pedido s ∧ db w' = db w ∧ cfg w' = cfg w
    ∧ NoDup (_observadores s')
    ∧ ∀ o, o ∈ _observadores s' ↔
           match op with
           | Agregar o' => o ∈ _observadores s ∨ o = o'
           | Quitar o' => o ∈ _observadores s ∧ o ≠ o'
           end.
Proof.
  intros Hnd. destruct op as [o'|o']; simpl.
  - rewrite /agregar_observador. case_decide as Hin; simpl.
    + exists s, w. do 4 (split; [done|]). split; [done|].
      intros o. split; [by left|]. by intros [?| ->].
    + eexists _, _. do 4 (split; [done|]). simpl. split.
      * apply NoDup_app. split; [done|]. split; [|apply NoDup_singleton].
        intros x Hx Hx'. by apply list_elem_of_singleton in Hx' as ->.
      * intros o. by rewrite elem_of_app list_elem_of_singleton.
  - rewrite /quitar_observador. case_decide as Hin.
    + destruct (list_remove_spec o' _ Hin) as (l1 & l2 & Heq & Hl1 & ->).
      eexists _, _. do 4 (split; [done|]). simpl.
      rewrite Heq in Hnd |- *.
      apply NoDup_app in Hnd as (Hnd1 & Hdis & Hnd2).
      apply NoDup_cons in Hnd2 as [Ho'2 Hnd2]. split.
      * apply NoDup_app. split; [done|]. split; [|done].
        intros x Hx Hx'. apply (Hdis x Hx). by right.
      * intros o. rewrite !elem_of_app elem_of_cons. split.
        -- intros [Ho|Ho]; (split; [tauto|]); by intros ->.
        -- intros [[Ho|[->|Ho]] Hne]; tauto.
    + exists s, w. do 4 (split; [done|]). split; [done|].
      intros o. split; [|tauto]. intros Ho. split; [done|]. by intros ->.
Qed.

(** Any sequence of calls leaves a subject whose list has no
    duplicates. *)
Lemma operar_nodup (ops : list (Operacion O)) p w :
  ∃ s w', operar ops p w = (Ok s, w') ∧ NoDup (_observadores s).
Proof.
  rewrite /operar. induction ops as [|op ops IH] using rev_ind.
  - eexists _, _. split; [done|]. apply NoDup_nil_2.
  - destruct IH as (s & w' & Heq & Hnd). rewrite foldl_app /= Heq.
    destruct (aplicar_spec op s w' Hnd) as (s' & w'' & -> & _ & _ & _ & Hnd' & _).
    by exists s', w''.
Qed.

(** Calls that do not register [o] keep it out of the list. *)
Lemma sigue_fuera (o : O) (ops : list (Operacion O)) : ∀ (s : PedidoSubject O) w,
  NoDup (_observadores s) → o ∉ _observadores s → Agregar o ∉ ops →
  ∃ s' w', foldl (λ sw op, aplicar op sw) (Ok s, w) ops = (Ok s', w')
    ∧ o ∉ _observadores s'.
Proof.
  induction ops as [|op ops IH]; intros s w Hnd Ho Hno; [by exists s, w|].
  apply not_elem_of_cons in Hno as [Hop Hno]. cbn [foldl].
  destruct (aplicar_spec op s w Hnd) as (s' & w' & -> & _ & _ & _ & Hnd' & Hin').
  apply IH; [done| |done]. rewrite Hin'.
  destruct op as [o'|o']; [|tauto]. intros [?| ->]; done.
Qed.

(** X13.  [PedidoSubject(p)] followed by any sequence of calls to
    [agregar_observador] and [quitar_observador]: no call raises, the
    subject keeps its order, the database and the configuration are not
    touched, the list never holds a listener twice, and a listener is in the
    list exactly when the last call that named it was
    [agregar_observador]. *)
Theorem suscripciones_al_dia (ops : list (Operacion O)) p w :
  ∃ s w', operar ops p w = (Ok s, w')
    ∧ pedido s = p ∧ db w' = db w ∧ cfg w' = cfg w
    ∧ NoDup (_observadores s)
    ∧ ∀ o, o ∈ _observadores s ↔
           ∃ ops1 ops2, ops = ops1 ++ Agregar o :: ops2 ∧ Quitar o ∉ ops2.
Proof.
  rewrite /operar. induction ops as [|op ops IH] using rev_ind.
  - eexists _, _. split; [done|]. do 3 (split; [done|]). split; [apply NoDup_nil_2|].
    intros o. split; [by intros ?%elem_of_nil|].
    intros (ops1 & ops2 & Heq & _). by destruct ops1.
  - destruct IH as (s & w' & Heq & Hp & Hdb & Hcfg & Hnd & Hin).
    rewrite foldl_app /= Heq.
    destruct (aplicar_spec op s w' Hnd) as (s' & w'' & -> & Hp' & Hdb' & Hcfg' & Hnd' & Hin').
    exists s', w''. split; [done|].
    split; [congruence|]. split; [congruence|]. split; [congruence|]. split; [done|].
    intros o. rewrite Hin'. destruct op as [o'|o'].
    + rewrite Hin. split.
      * intros [(ops1 & ops2 & -> & Hq)| ->].
        -- exists ops1, (ops2 ++ [Agregar o']). split; [by rewrite -app_assoc|].
           rewrite not_elem_of_app list_elem_of_singleton. done.
        -- exists ops, []. split; [done|]. apply not_elem_of_nil.
      * intros (ops1 & ops2 & Hsplit & Hq).
        apply app_singleton_split in Hsplit as [(-> & -> & [= ->])|(l2' & -> & ->)].
        -- by right.
        -- left. exists ops1, l2'. split; [done|].
           by apply not_elem_of_app in Hq as [Hq _].
    + rewrite Hin. split.
      * intros [(ops1 & ops2 & -> & Hq) Hne].
        exists ops1, (ops2 ++ [Quitar o']). split; [by rewrite -app_assoc|].
        rewrite not_elem_of_app list_elem_of_singleton. split; [done|congruence].
      * intros (ops1 & ops2 & Hsplit & Hq).
        apply app_singleton_split in Hsplit as [(-> & -> & [=])|(l2' & -> & ->)].
        apply not_elem_of_app in Hq as [Hq Hne]. split.
        -- by exists ops1, l2'.
        -- intros ->. apply Hne. by apply list_elem_of_singleton.
Qed.

(** The loop invokes listeners of its list only, in the order of the
    list, whatever they raise. *)
Lemma entregar_prefix (obs : list O) p evento datos : ∀ w,
  llamadas (entregar obs p evento datos w)
  `prefix_of` map (λ o, mkLlamada o p evento datos) obs.
Proof.
  induction obs as [|o obs IH]; intros w; [done|].
  simpl. destruct (actualizar o p evento datos w) as [[[]|e] w']; simpl.
  - by apply prefix_cons.
  - destruct (is_Exception e); simpl; [by apply prefix_cons|].
    apply prefix_cons, prefix_nil.
Qed.

Lemma llamadas_registradas (s : PedidoSubject O) evento datos w c :
  c ∈ llamadas (notificar_observadores s evento datos w) →
  a_observador c ∈ _observadores s.
Proof.
  rewrite /notificar_observadores. intros Hc.
  destruct (entregar_prefix (_observadores s) (pedido s) evento datos
              (print (mkAviso "NOTIFICACION" "Notificando a observador(es)" (pk (pedido s)))
                 (print (mkAviso "NOTIFICACION" evento (pk (pedido s)))
                    (log ("Notificando: " +:+ evento) (pedido s) w)))) as [k Hk].
  assert (c ∈ map (λ o, mkLlamada o (pedido s) evento datos) (_observadores s)) as Hc'
    by (rewrite Hk; apply elem_of_app; by left).
  apply list_elem_of_fmap in Hc' as (o & -> & Ho). done.
Qed.

(** X14.  A listener whose last call was [quitar_observador] is not
    invoked by any later notification, whatever the other listeners do or
    raise. *)
Theorem quitado_no_recibe (ops1 ops2 : list (Operacion O)) o p w evento datos w1 :
  Agregar o ∉ ops2 →
  ∃ s w', operar (ops1 ++ Quitar o :: ops2) p w = (Ok s, w')
    ∧ ∀ c, c ∈ llamadas (notificar_observadores s evento datos w1) →
           a_observador c ≠ o.
Proof.
  intros Hno.
  destruct (operar_nodup ops1 p w) as (s1 & w2 & Heq1 & Hnd1).
  destruct (aplicar_spec (Quitar o) s1 w2 Hnd1)
    as (s2 & w3 & Heq2 & _ & _ & _ & Hnd2 & Hin2).
  destruct (sigue_fuera o ops2 s2 w3 Hnd2) as (s & w' & Heq & Hout); [|done|].
  { rewrite Hin2. by intros [_ ?]. }
  exists s, w'. split.
  - rewrite /operar foldl_app /=. rewrite /operar in Heq1. by rewrite Heq1 Heq2.
  - intros c Hc Ho. apply llamadas_registradas in Hc. by rewrite Ho in Hc.
Qed.


(** X15.  [agregar_observador] twice is [agregar_observador] once, and
    [quitar_observador] undoes the [agregar_observador] of a listener that
    was not registered: the subject is as before. *)
Theorem agregar_quitar_inverse (o : O) (s : PedidoSubject O) (w w1 : World) :
  agregar_observador o (agregar_observador o s w).1 w1
  = ((agregar_observador o s w).1, w1)
  ∧ (o ∉ _observadores s →
     (quitar_observador o (agregar_observador o s w).1 w1).1 = Ok s).
Proof.
  split.
  - apply agregar_observador_present. rewrite /agregar_observador.
    case_decide; simpl; [done|]. apply elem_of_app. right. by left.
  - intros Hin. destruct (agregar_observador_absent o s w Hin) as [Hp Hl].
    rewrite /quitar_observador Hl Hp. rewrite decide_True.
    { apply elem_of_app. right. by left. }
    assert (∀ l : list O, o ∉ l → list_remove o (l ++ [o]) = Ok l) as Hrem.
    { induction l as [|y l IH]; intros Hl'; simpl.
      - by rewrite decide_True.
      - apply not_elem_of_cons in Hl' as [Hne Hl'].
        rewrite decide_False; [congruence|]. by rewrite (IH Hl'). }
    rewrite (Hrem _ Hin) /=. by destruct s.
Qed.

End SuscripcionesProps.

Section SuscripcionesOyentes.
Import Py Models Observers Suscripciones Escenarios.

Lemma quitado_no_recibe_witness :
  (Agregar L1 ∉ [Agregar L3])
  ∧ ∃ s w', operar ([Agregar L1; Agregar L2] ++ Quitar L1 :: [Agregar L3])
              pedido_9 mundo_vacio = (Ok s, w')
      ∧ ∀ c, c ∈ llamadas (notificar_observadores s "cambio_estado" None mundo_vacio) →
             a_observador c ≠ L1.
Proof.
  assert (Agregar L1 ∉ [Agregar L3]) as Hno
    by (intros Hin; apply list_elem_of_singleton in Hin; discriminate).
  split; [exact Hno|].
  exact (quitado_no_recibe [Agregar L1; Agregar L2] [Agregar L3] L1 pedido_9 mundo_vacio
           "cambio_estado" None mundo_vacio Hno).
Defined.

(** L1 is registered, removed and registered again; L2 is removed: the
    list is L3, L1. *)
Example suscripciones_ejemplo :
  (operar [Agregar L1; Agregar L2; Agregar L3; Quitar L1;
           Agregar L1; Quitar L2; Quitar L2] pedido_9 mundo_vacio).1
  = Ok (mkSubject pedido_9 [L3; L1]).
Proof. reflexivity. Qed.

End SuscripcionesOyentes.

Section RoutingProps.
Import Py Models Observers Suscripciones Escenarios.

Lemma mostrar_items_consola rows p : ∀ w,
  ∃ l, consola (mostrar_items rows p w).2 = consola w ++ l.
Proof.
  induction rows as [|r rows IH]; intros w; [exists []; by rewrite app_nil_r|].
  simpl. destruct (platillos (db w) !! row_platillo r) as [pl|].
  - destruct (IH (print (mkAviso "COCINA" (nombre pl) (pk p)) w)) as [l ->].
    eexists. by rewrite /= -app_assoc.
  - exists []. by rewrite app_nil_r.
Qed.

(** A world whose console has grown is another world. *)
Lemma consola_crece (w w' : World) a l : consola w' = consola w ++ a :: l → w' ≠ w.
Proof.
  intros Hc ->. apply (f_equal length) in Hc. rewrite length_app /= in Hc. lia.
Qed.

Lemma avisar_no_callado quien texto p w : ¬ callado (avisar quien texto p w) w.
Proof.
  rewrite /callado /avisar. intros [= Hw].
  assert (consola (print (mkAviso quien texto (pk p))
                     (print (mkAviso quien texto (pk p)) w))
          = consola w ++ mkAviso quien texto (pk p) :: [mkAviso quien texto (pk p)])
    as Hc by by rewrite /= -app_assoc.
  by apply consola_crece in Hc.
Qed.

Lemma cambio_a_estado (datos : Datos) nuevo s :
  datos !! "estado_nuevo" = Some (DVal (VStr nuevo)) →
  cambio_a "cambio_estado" (Some datos) s = Ok (bool_decide (nuevo = s)).
Proof. intros Hd. by rewrite /cambio_a /estado_nuevo_es /= Hd. Qed.

Lemma not_in_two (x a b : string) : x ∉ [a; b] ↔ x ≠ a ∧ x ≠ b.
Proof.
  rewrite !not_elem_of_cons. split; [tauto|].
  intros []. do 2 (split; [done|]). apply not_elem_of_nil.
Qed.

(** X16.  Who attends a change of status.  For the payload that
    [cambiar_estado] builds (it carries the old and the new status), the
    kitchen listener stays silent unless the new status is [pendiente] or
    [cancelado], the waiter listener unless it is [listo] or [entregado],
    the administrator listener never, and the e-mail listener unless it is
    [pedido_pagado] or [cancelado]; on any event other than
    [cambio_estado], a payment included, the e-mail listener is silent. *)
Theorem quien_atiende_el_cambio (o : Observador) p (datos : Datos) nuevo w :
  datos !! "estado_nuevo" = Some (DVal (VStr nuevo)) →
  is_Some (datos !! "estado_anterior") →
  (callado (actualizar o p "cambio_estado" (Some datos) w) w ↔
     match clase o with
     | CocinaObserver => nuevo ∉ ["pendiente"; "cancelado"]
     | MeseroObserver => nuevo ∉ ["listo"; "entregado"]
     | AdministradorObserver => False
     | NotificacionEmailObserver _ => nuevo ∉ ["pedido_pagado"; "cancelado"]
     end)
  ∧ ∀ destino evento datos',
      evento ≠ "cambio_estado" →
      callado (actualizar (mkObservador (oid o) (NotificacionEmailObserver destino))
                 p evento datos' w) w.
Proof.
  intros Hnuevo [anterior Hanterior]. split; last first.
  { intros destino evento datos' Hev. rewrite /callado /= /actualizar_email.
    by rewrite decide_False. }
  destruct o as [n []]; simpl.
  - rewrite /actualizar_cocina not_in_two !(cambio_a_estado datos nuevo) //.
    destruct (decide (nuevo = "pendiente")) as [->|Hp].
    + rewrite bool_decide_eq_true_2 //. split; [|by intros []].
      intros Hc. exfalso. rewrite /callado in Hc.
      destruct (mostrar_items_consola (item_set p (db w)) p
                  (print (mkAviso "COCINA" "NUEVO PEDIDO" (pk p)) w)) as [l Hl].
      destruct (mostrar_items _ _ _) as [[[]|e] w']; [|done].
      injection Hc as Hw. simpl in Hl.
      apply (consola_crece w (print (mkAviso "COCINA" "NUEVO PEDIDO" (pk p)) w')
               (mkAviso "COCINA" "NUEVO PEDIDO" (pk p))
               (l ++ [mkAviso "COCINA" "NUEVO PEDIDO" (pk p)])); [|done].
      by rewrite /= Hl -!app_assoc.
    + rewrite bool_decide_eq_false_2 //=.
      destruct (decide (nuevo = "cancelado")) as [->|Hc].
      * rewrite bool_decide_eq_true_2 //. split; [|by intros []].
        intros Hcal. by apply avisar_no_callado in Hcal.
      * by rewrite bool_decide_eq_false_2.
  - rewrite /actualizar_mesero not_in_two !(cambio_a_estado datos nuevo) //.
    destruct (decide (nuevo = "listo")) as [->|Hl].
    + rewrite bool_decide_eq_true_2 //. split; [|by intros []].
      intros Hcal. by apply avisar_no_callado in Hcal.
    + rewrite bool_decide_eq_false_2 //=.
      destruct (decide (nuevo = "entregado")) as [->|He].
      * rewrite bool_decide_eq_true_2 //. split; [|by intros []].
        intros Hcal. by apply avisar_no_callado in Hcal.
      * by rewrite bool_decide_eq_false_2.
  - rewrite /actualizar_administrador /= Hanterior Hnuevo. split; [|done].
    intros Hcal. by apply avisar_no_callado in Hcal.
  - rewrite /actualizar_email /= Hnuevo.
    case_decide as Hin; split; try done.
    intros Hcal. by apply avisar_no_callado in Hcal.
Qed.

Lemma quien_atiende_el_cambio_witness :
  let datos : Datos := <["estado_anterior" := DVal (VStr "listo")]>
                       (<["estado_nuevo" := DVal (VStr "entregado")]> ∅) in
  datos !! "estado_nuevo" = Some (DVal (VStr "entregado"))
  ∧ is_Some (datos !! "estado_anterior")
  ∧ (callado (actualizar (mkObservador 1 CocinaObserver) pedido_9 "cambio_estado"
                (Some datos) mundo_vacio) mundo_vacio ↔
     "entregado" ∉ ["pendiente"; "cancelado"])
  ∧ ∀ destino evento datos',
      evento ≠ "cambio_estado" →
      callado (actualizar (mkObservador 1 (NotificacionEmailObserver destino))
                 pedido_9 evento datos' mundo_vacio) mundo_vacio.
Proof.
  intros datos.
  assert (datos !! "estado_nuevo" = Some (DVal (VStr "entregado"))) as Hn by reflexivity.
  assert (is_Some (datos !! "estado_anterior")) as Ha by (eexists; reflexivity).
  split; [exact Hn|]. split; [exact Ha|].
  exact (quien_atiende_el_cambio (mkObservador 1 CocinaObserver) pedido_9 datos
           "entregado" mundo_vacio Hn Ha).
Defined.







End RoutingProps.

(* ===================================================================== *)
(** * Properties of the decorators and of the views they guard            *)
(* ===================================================================== *)

Section DecoratorsProps.
Import Py Models Observers Forms Views Escenarios.

Lemma has_permission_iff (roles user_groups : list string) :
  existsb (λ role, bool_decide (role ∈ user_groups)) roles = true
  ↔ ∃ role, role ∈ roles ∧ role ∈ user_groups.
Proof.
  rewrite existsb_exists. split.
  - intros (role & Hin & Hg). exists role.
    split; [by apply list_elem_of_In|by apply bool_decide_eq_true in Hg].
  - intros (role & Hin & Hg). exists role.
    split; [by apply list_elem_of_In|by apply bool_decide_eq_true].
Qed.

(** X17.  The three decorators every protected view carries,
    [@login_required @log_view_access @require_role(...)], around any view
    body: an anonymous request is sent to the login page and nothing at all
    happens; a user in none of the required groups is sent to the dashboard
    with the error message, and the body does not run, so the database and
    the configuration are as before; a user in one of the groups gets
    exactly the response of the body, which runs once, on the same database
    and configuration. *)
Theorem require_role_guards (roles : list string) (n1 n2 : string) (body : View)
    request w :
  let vista := login_required (log_view_access n1 (require_role roles n2 body)) in
  (is_authenticated (user request) = false →
     vista request w = mkSalida (Redirect "login") [] w)
  ∧ (is_authenticated (user request) = true →
     (∀ role, role ∈ roles → role ∉ groups (user request)) →
     ∃ w', vista request w
           = mkSalida (Redirect "restaurant:dashboard")
               [(Error, "No tienes permisos para acceder a esta sección")] w'
           ∧ db w' = db w ∧ cfg w' = cfg w ∧ config_file w' = config_file w)
  ∧ (is_authenticated (user request) = true →
     (∃ role, role ∈ roles ∧ role ∈ groups (user request)) →
     ∃ w', vista request w = body request w'
           ∧ db w' = db w ∧ cfg w' = cfg w ∧ config_file w' = config_file w).
Proof.
  intros vista. rewrite /vista /login_required /log_view_access /require_role
    /login_required. cbv beta zeta.
  pose proof (has_permission_iff roles (groups (user request))) as Hperm.
  split; [by intros ->|]. split.
  - intros -> Hnone.
    destruct (existsb _ roles) eqn:Hex.
    + destruct (proj1 Hperm eq_refl) as (role & Hin & Hg). by destruct (Hnone role).
    + by eexists.
  - intros -> Hsome. rewrite (proj2 Hperm Hsome) /=. by eexists.
Qed.

(** What a guarded view leaves alone when its body does. *)
Lemma protegida_marco (roles : list string) (n1 n2 : string) (body : View) request w :
  (∀ w', db w' = db w → cfg w' = cfg w →
     db (despues (body request w')) = db w
     ∧ cfg (despues (body request w')) = cfg w) →
  db (despues (login_required (log_view_access n1 (require_role roles n2 body))
                 request w)) = db w
  ∧ cfg (despues (login_required (log_view_access n1 (require_role roles n2 body))
                    request w)) = cfg w.
Proof.
  intros Hbody. rewrite /login_required /log_view_access /require_role /login_required.
  destruct (is_authenticated (user request)); [|done]. cbv beta zeta.
  destruct (existsb _ roles); simpl; [|done]. by apply Hbody.
Qed.

(** X18.  The two views that write to an order do so on POST only, and
    only to an order that exists: any other request, whoever sends it,
    leaves the database and the configuration as they are. *)
Theorem sin_post_no_se_escribe k ahora request w :
  method request ≠ "POST" ∨ pedidos (db w) !! k = None →
  (db (despues (cambiar_estado_pedido k ahora request w)) = db w
   ∧ cfg (despues (cambiar_estado_pedido k ahora request w)) = cfg w)
  ∧ (db (despues (agregar_item_pedido k ahora request w)) = db w
     ∧ cfg (despues (agregar_item_pedido k ahora request w)) = cfg w).
Proof.
  intros Hcase. split.
  - apply protegida_marco. intros w' Hdb Hcfg.
    rewrite /cambiar_estado_pedido_body Hdb.
    destruct (pedidos (db w) !! k) as [pedido|] eqn:Hped; [|done].
    destruct Hcase as [Hget|?]; [|done]. by rewrite decide_False.
  - apply protegida_marco. intros w' Hdb Hcfg.
    rewrite /agregar_item_pedido_body Hdb.
    destruct (pedidos (db w) !! k) as [pedido|] eqn:Hped; [|done].
    destruct Hcase as [Hget|?]; [|done]. by rewrite decide_False.
Qed.

Lemma sin_post_no_se_escribe_witness :
  (method (mkRequest "GET" (Some "listo") (mkItemPedidoData (Some 1) (Some 3) "")
             (mkUser "ana" true ["mesero"])) ≠ "POST"
   ∨ pedidos (db mundo_tacos) !! 7 = None)
  ∧ (db (despues (cambiar_estado_pedido 7 0
                    (mkRequest "GET" (Some "listo") (mkItemPedidoData (Some 1) (Some 3) "")
                       (mkUser "ana" true ["mesero"])) mundo_tacos)) = db mundo_tacos
     ∧ cfg (despues (cambiar_estado_pedido 7 0
                       (mkRequest "GET" (Some "listo") (mkItemPedidoData (Some 1) (Some 3) "")
                          (mkUser "ana" true ["mesero"])) mundo_tacos)) = cfg mundo_tacos)
  ∧ (db (despues (agregar_item_pedido 7 0
                    (mkRequest "GET" (Some "listo") (mkItemPedidoData (Some 1) (Some 3) "")
                       (mkUser "ana" true ["mesero"])) mundo_tacos)) = db mundo_tacos
     ∧ cfg (despues (agregar_item_pedido 7 0
                       (mkRequest "GET" (Some "listo") (mkItemPedidoData (Some 1) (Some 3) "")
                          (mkUser "ana" true ["mesero"])) mundo_tacos)) = cfg mundo_tacos).
Proof.
  assert (method (mkRequest "GET" (Some "listo") (mkItemPedidoData (Some 1) (Some 3) "")
                    (mkUser "ana" true ["mesero"])) ≠ "POST"
          ∨ pedidos (db mundo_tacos) !! 7 = None) as Hcase by (left; discriminate).
  split; [exact Hcase|].
  exact (sin_post_no_se_escribe 7 0 _ mundo_tacos Hcase).
Defined.

End DecoratorsProps.

(* ===================================================================== *)
(** * Properties of the forms of dishes, tables and payments              *)
(* ===================================================================== *)

Section FormulariosProps.
Import Py Models Formularios.

(** The sign of a decimal is the sign of its coefficient. *)
Lemma dec_value_le0 d : (dec_value d <= 0)%Q ↔ dec_coef d ≤ 0.
Proof.
  rewrite /dec_value. set (p := Qpower _ _).
  assert (0 < p)%Q as Hp by (apply Qpower_0_lt; reflexivity).
  assert (inject_Z 0 * p == 0)%Q as H0 by apply Qmult_0_l.
  split; intros Hle.
  - rewrite Zle_Qle. apply (proj1 (Qmult_le_r (inject_Z (dec_coef d)) (inject_Z 0) p Hp)).
    apply (Qle_trans _ 0); [exact Hle|]. apply Qle_lteq. right. by symmetry.
  - rewrite Zle_Qle in Hle.
    apply (proj2 (Qmult_le_r (inject_Z (dec_coef d)) (inject_Z 0) p Hp)) in Hle.
    apply (Qle_trans _ (inject_Z 0 * p)); [exact Hle|]. apply Qle_lteq. by right.
Qed.

Lemma dec_value_ge0 d : (0 <= dec_value d)%Q ↔ 0 ≤ dec_coef d.
Proof.
  rewrite /dec_value. set (p := Qpower _ _).
  assert (0 < p)%Q as Hp by (apply Qpower_0_lt; reflexivity).
  assert (inject_Z 0 * p == 0)%Q as H0 by apply Qmult_0_l.
  split; intros Hle.
  - rewrite Zle_Qle. apply (proj1 (Qmult_le_r (inject_Z 0) (inject_Z (dec_coef d)) p Hp)).
    apply (Qle_trans _ 0); [|exact Hle]. apply Qle_lteq. by right.
  - rewrite Zle_Qle in Hle.
    apply (proj2 (Qmult_le_r (inject_Z 0) (inject_Z (dec_coef d)) p Hp)) in Hle.
    apply (Qle_trans _ (inject_Z 0 * p)); [|exact Hle]. apply Qle_lteq. right. by symmetry.
Qed.

(** [d and d <= 0], for a [Decimal]: true for the negative values only. *)
Lemma truthy_and_le0 d :
  (if dec_truthy d
   then match le_int (VDecimal d) 0 with Ok b => b | Raise _ => false end
   else false)
  = bool_decide (dec_coef d < 0).
Proof.
  rewrite /dec_truthy /le_int /=. change (inject_Z 0) with 0%Q.
  destruct (Z.eqb_spec (dec_coef d) 0) as [Hz|Hz]; simpl.
  - rewrite bool_decide_eq_false_2 //. lia.
  - destruct (Qle_bool (dec_value d) 0) eqn:Hle.
    + apply Qle_bool_iff, dec_value_le0 in Hle. rewrite bool_decide_eq_true_2 //. lia.
    + rewrite bool_decide_eq_false_2 //. intros Hneg.
      assert (Qle_bool (dec_value d) 0 = true) as Habs
        by (apply Qle_bool_iff, dec_value_le0; lia).
      congruence.
Qed.

Lemma clean_decimal_spec (msg : string) d :
  (if dec_truthy d
   then match le_int (VDecimal d) 0 with
        | Ok true => Raise (ValidationError msg)
        | Ok false => Ok (Some d)
        | Raise e => Raise e
        end
   else Ok (Some d))
  = if bool_decide (dec_coef d < 0) then Raise (ValidationError msg) else Ok (Some d).
Proof.
  rewrite -(truthy_and_le0 d) /le_int /=.
  destruct (dec_truthy d); [|done]. by destruct (Qle_bool _ _).
Qed.

(** X19.  [PlatilloForm.clean_precio] and [PagoForm.clean_monto] reject
    exactly the negative amounts.  An amount of zero, in any notation
    ([0], [0.00]), is returned as valid, although the message says the
    amount must be greater than zero: the truth-value test that lets a
    missing amount through lets zero through as well. *)
Theorem clean_precio_clean_monto_cases (d : Decimal) :
  ((dec_value d < 0)%Q →
     clean_precio (Some d) = Raise (ValidationError "El precio debe ser mayor a cero")
     ∧ clean_monto (Some d) = Raise (ValidationError "El monto debe ser mayor a cero"))
  ∧ ((0 <= dec_value d)%Q →
     clean_precio (Some d) = Ok (Some d) ∧ clean_monto (Some d) = Ok (Some d))
  ∧ ((dec_value d == 0)%Q →
     clean_precio (Some d) = Ok (Some d) ∧ clean_monto (Some d) = Ok (Some d)).
Proof.
  rewrite /clean_precio /clean_monto !clean_decimal_spec.
  split; [|split].
  - intros Hd. apply Qlt_not_le in Hd.
    rewrite bool_decide_eq_true_2 //.
    destruct (Z.lt_ge_cases (dec_coef d) 0) as [?|Hge]; [done|].
    destruct Hd. apply dec_value_ge0. lia.
  - intros Hd. apply dec_value_ge0 in Hd. rewrite bool_decide_eq_false_2 //. lia.
  - intros Hz. assert (0 <= dec_value d)%Q as Hd
      by (apply Qle_lteq; right; by symmetry).
    apply dec_value_ge0 in Hd. rewrite bool_decide_eq_false_2 //. lia.
Qed.

(** A price of [0.00] is valid; a price of [-0.01] is not. *)
Example clean_precio_cero :
  clean_precio (Some (mkDecimal 0 (-2))) = Ok (Some (mkDecimal 0 (-2)))
  ∧ clean_precio (Some (mkDecimal (-1) (-2)))
    = Raise (ValidationError "El precio debe ser mayor a cero").
Proof. split; reflexivity. Qed.

(** X20.  [PlatilloForm.clean_tiempo_preparacion] accepts the times from
    1 to 180 and [MesaForm.clean_capacidad] the capacities from 1 to 20;
    both reject every negative number and every number above their upper
    bound, and both accept 0, which their messages exclude. *)
Theorem clean_rangos_cases (n : Z) :
  (1 ≤ n ≤ 180 → clean_tiempo_preparacion (Some n) = Ok (Some n))
  ∧ (n < 0 ∨ 180 < n →
     clean_tiempo_preparacion (Some n)
     = Raise (ValidationError "El tiempo debe estar entre 1 y 180 minutos"))
  ∧ clean_tiempo_preparacion (Some 0) = Ok (Some 0)
  ∧ (1 ≤ n ≤ 20 → clean_capacidad (Some n) = Ok (Some n))
  ∧ (n < 0 ∨ 20 < n →
     clean_capacidad (Some n)
     = Raise (ValidationError "La capacidad debe estar entre 1 y 20 personas"))
  ∧ clean_capacidad (Some 0) = Ok (Some 0).
Proof.
  rewrite /clean_tiempo_preparacion /clean_capacidad.
  repeat match goal with |- _ ∧ _ => split end; try done; intros Hn;
    destruct (Z.eqb_spec n 0); destruct (Z.ltb_spec n 1);
    try (destruct (Z.gtb_spec n 180)); try (destruct (Z.gtb_spec n 20));
    simpl; try done; lia.
Qed.

(** What [clean_numero] looks for: a table with the number [n] other
    than the one being edited. *)
Lemma clean_numero_spec (mesas : Mesas) ipk n :
  n ≠ 0 → ipk ≠ Some 0 →
  ((∃ j b, mesas !! j = Some b ∧ numero b = n ∧ ipk ≠ Some j) →
     clean_numero ipk (Some n) mesas
     = Raise (ValidationError "Ya existe una mesa con el número"))
  ∧ (¬ (∃ j b, mesas !! j = Some b ∧ numero b = n ∧ ipk ≠ Some j) →
     clean_numero ipk (Some n) mesas = Ok (Some n)).
Proof.
  intros Hn Hk. rewrite /clean_numero.
  destruct (Z.eqb_spec n 0) as [|_]; [done|]. simpl.
  destruct ipk as [k|].
  - destruct (Z.eqb_spec k 0) as [->|_]; [done|]. simpl.
    rewrite /existe_numero_aparte. split.
    + intros (j & b & Hj & Hb & Hne). rewrite bool_decide_eq_true_2 //.
      exists j, b. split; [done|]. split; [done|]. congruence.
    + intros Hno. rewrite bool_decide_eq_false_2 //.
      intros (j & b & Hj & Hb & Hne). apply Hno. exists j, b.
      split; [done|]. split; [done|]. congruence.
  - rewrite /existe_numero. split.
    + intros (j & b & Hj & Hb & _). rewrite bool_decide_eq_true_2 //. by exists j, b.
    + intros Hno. rewrite bool_decide_eq_false_2 //.
      intros (j & b & Hj & Hb). apply Hno. by exists j, b.
Qed.

(** X21.  [MesaForm.clean_numero] for a number other than 0: the number
    is refused when another table has it, and accepted when no table has it
    or only the table being edited has it; storing a table under an
    accepted number (under its own key when it is edited, under a new key
    when it is created) keeps the numbers of the tables distinct. *)
Theorem clean_numero_keeps_unique (mesas : Mesas) ipk n :
  n ≠ 0 → ipk ≠ Some 0 →
  ((∃ j b, mesas !! j = Some b ∧ numero b = n ∧ ipk ≠ Some j) →
     clean_numero ipk (Some n) mesas
     = Raise (ValidationError "Ya existe una mesa con el número"))
  ∧ ((∀ j b, mesas !! j = Some b → numero b = n → ipk = Some j) →
     clean_numero ipk (Some n) mesas = Ok (Some n))
  ∧ (clean_numero ipk (Some n) mesas = Ok (Some n) →
     numeros_unicos mesas →
     ∀ k cap ubi act,
       match ipk with Some i => i = k | None => mesas !! k = None end →
       numeros_unicos (<[k := mkMesa n cap ubi act]> mesas)).
Proof.
  intros Hn Hk. destruct (clean_numero_spec mesas ipk n Hn Hk) as [Hyes Hno].
  split; [done|]. split.
  - intros Hown. apply Hno. intros (j & b & Hj & Hb & Hne). by destruct Hne; apply (Hown j b).
  - intros Hok Huniq k cap ubi act Hkey.
    assert (∀ j b, mesas !! j = Some b → numero b = n → j = k) as Hsolo.
    { intros j b Hj Hb. destruct (decide (ipk = Some j)) as [Heq|Hne].
      - rewrite Heq in Hkey. done.
      - rewrite Hyes in Hok; [|done]. by exists j, b. }
    intros i j a b Hi Hj Hab.
    destruct (decide (i = k)) as [->|Hik]; destruct (decide (j = k)) as [->|Hjk];
      simplify_map_eq; try done.
    + symmetry. by apply (Hsolo j b).
    + by apply (Hsolo i a).
    + by apply (Huniq i j a b).
Qed.

Lemma clean_numero_keeps_unique_witness :
  (3 : Z) ≠ 0 ∧ Some (1 : Z) ≠ Some 0
  ∧ ((∃ j b, VistaCrear.dos_mesas !! j = Some b ∧ numero b = 3 ∧ Some 1 ≠ Some j) →
       clean_numero (Some 1) (Some 3) VistaCrear.dos_mesas
       = Raise (ValidationError "Ya existe una mesa con el número"))
  ∧ ((∀ j b, VistaCrear.dos_mesas !! j = Some b → numero b = 3 → Some 1 = Some j) →
       clean_numero (Some 1) (Some 3) VistaCrear.dos_mesas = Ok (Some 3))
  ∧ (clean_numero (Some 1) (Some 3) VistaCrear.dos_mesas = Ok (Some 3) →
     numeros_unicos VistaCrear.dos_mesas →
     ∀ k cap ubi act,
       match Some 1 with Some i => i = k | None => VistaCrear.dos_mesas !! k = None end →
       numeros_unicos (<[k := mkMesa 3 cap ubi act]> VistaCrear.dos_mesas)).
Proof.
  assert ((3 : Z) ≠ 0) as Hn by lia.
  assert (Some (1 : Z) ≠ Some 0) as Hk by discriminate.
  split; [exact Hn|]. split; [exact Hk|].
  exact (clean_numero_keeps_unique VistaCrear.dos_mesas (Some 1) 3 Hn Hk).
Defined.

(** Table 1 keeps its number 3; it cannot take the number 5 of table 2,
    and neither can a new table. *)
Example clean_numero_ejemplo :
  clean_numero (Some 1) (Some 3) VistaCrear.dos_mesas = Ok (Some 3)
  ∧ clean_numero (Some 1) (Some 5) VistaCrear.dos_mesas
    = Raise (ValidationError "Ya existe una mesa con el número")
  ∧ clean_numero None (Some 5) VistaCrear.dos_mesas
    = Raise (ValidationError "Ya existe una mesa con el número").
Proof. by vm_compute. Qed.

End FormulariosProps.

(* ===================================================================== *)
(** * Properties of the creation of orders                                *)
(* ===================================================================== *)

Section VistaCrearProps.
Import Py Models Observers Forms Views Formularios VistaCrear Escenarios.

Lemma foldr_max_ge (l : list Z) x : x ∈ l → x ≤ foldr Z.max 0 l.
Proof.
  induction l as [|y l IH]; intros Hin; [by apply elem_of_nil in Hin|].
  simpl. apply elem_of_cons in Hin as [->|Hin]; [lia|]. specialize (IH Hin). lia.
Qed.

(** The key of a new order is the key of no order. *)
Lemma next_pedido_pk_fresh d : pedidos d !! next_pedido_pk d = None.
Proof.
  destruct (pedidos d !! next_pedido_pk d) as [p|] eqn:Hp; [exfalso|done].
  apply elem_of_map_to_list in Hp.
  assert (next_pedido_pk d ∈ (map_to_list (pedidos d)).*1) as Hin
    by (apply list_elem_of_fmap; by exists (next_pedido_pk d, p)).
  apply foldr_max_ge in Hin. rewrite /next_pedido_pk in Hin. lia.
Qed.

Lemma field_mesa_ok data_mesa (mesas : Mesas) d m :
  field_mesa data_mesa mesas d = Ok m →
  ∃ k, data_mesa = Some k ∧ mesas !! k = Some m ∧ activa m = true
       ∧ pedido_activo m d = false.
Proof.
  rewrite /field_mesa /clean_mesa. destruct data_mesa as [k|]; [|done].
  destruct (mesas !! k) as [m'|] eqn:Hm; [|done].
  destruct (activa m') eqn:Ha; [|done].
  destruct (pedido_activo m' d) eqn:Hp; [done|]. simpl.
  intros [= <-]. by exists k.
Qed.

(** The body of the view on a POST whose form is valid. *)
Lemma crear_pedido_body_ok (mesas : Mesas) mesa_id data_mesa ahora request w m :
  method request = "POST" → is_Some (mesa_de_url mesa_id mesas) →
  field_mesa data_mesa mesas (db w) = Ok m →
  db (despues (crear_pedido_body mesas mesa_id data_mesa ahora request w))
  = save_pedido (mkPedido (next_pedido_pk (db w)) (numero m) "pendiente"
                   (VInt 0) (VInt 0) (VInt 0)) (db w)
  ∧ respuesta (crear_pedido_body mesas mesa_id data_mesa ahora request w)
    = Redirect "restaurant:detalle_pedido"
  ∧ mensajes (crear_pedido_body mesas mesa_id data_mesa ahora request w)
    = [(Success, "Pedido creado exitosamente")].
Proof.
  intros Hpost [en_url Hurl] Hfield. rewrite /crear_pedido_body Hurl.
  rewrite decide_True // Hfield.
  set (pedido := mkPedido _ _ _ _ _ _).
  rewrite /nuevo_subject.
  set (w0 := log _ _ _).
  destruct (agregar_observador_keeps (mkObservador 1 CocinaObserver)
              (mkSubject pedido []) w0) as [Hp1 Hd1].
  destruct (agregar_observador _ (mkSubject pedido []) w0) as [s1 w1].
  destruct (agregar_observador_keeps (mkObservador 2 MeseroObserver) s1 w1)
    as [Hp2 Hd2].
  destruct (agregar_observador _ s1 w1) as [s2 w2].
  destruct (agregar_observador_keeps (mkObservador 3 AdministradorObserver) s2 w2)
    as [Hp3 Hd3].
  destruct (agregar_observador _ s2 w2) as [s3 w3].
  simpl in Hp1, Hd1, Hp2, Hd2, Hp3, Hd3.
  destruct (cambiar_estado_saves s3 "pendiente" (Some (username (user request))) ahora w3)
    as [Hres Hdb].
  destruct (cambiar_estado "pendiente" _ ahora s3 w3) as [s4 r]. simpl in Hres, Hdb.
  rewrite Hres /= Hdb Hd3 Hd2 Hd1 Hp3 Hp2 Hp1.
  split; [|done]. apply save_pedido_twice.
Qed.

(** The body of the view either writes nothing, or stores one new order,
    pending, for an active table that no order occupies. *)
Lemma crear_pedido_body_spec (mesas : Mesas) mesa_id data_mesa ahora request w :
  db (despues (crear_pedido_body mesas mesa_id data_mesa ahora request w)) = db w
  ∨ (∃ m, pedido_activo m (db w) = false
       ∧ db (despues (crear_pedido_body mesas mesa_id data_mesa ahora request w))
         = save_pedido (mkPedido (next_pedido_pk (db w)) (numero m) "pendiente"
                          (VInt 0) (VInt 0) (VInt 0)) (db w)).
Proof.
  destruct (mesa_de_url mesa_id mesas) as [en_url|] eqn:Hurl;
    [|by left; rewrite /crear_pedido_body Hurl].
  destruct (decide (method request = "POST")) as [Hpost|Hpost];
    [|by left; rewrite /crear_pedido_body Hurl decide_False].
  destruct (field_mesa data_mesa mesas (db w)) as [m|e] eqn:Hfield;
    [|by left; rewrite /crear_pedido_body Hurl decide_True // Hfield].
  destruct (field_mesa_ok _ _ _ _ Hfield) as (k & -> & Hm & Ha & Hp).
  right. exists m. split; [done|].
  apply crear_pedido_body_ok; [done| |done]. rewrite Hurl. by eexists.
Qed.

(** The decorated view does what its body does, or nothing. *)
Lemma protegida_casos (roles : list string) (n1 n2 : string) (body : View) request w :
  db (despues (login_required (log_view_access n1 (require_role roles n2 body))
                 request w)) = db w
  ∨ ∃ w', db w' = db w
      ∧ is_authenticated (user request) = true
      ∧ (∃ role, role ∈ roles ∧ role ∈ groups (user request))
      ∧ login_required (log_view_access n1 (require_role roles n2 body)) request w
        = body request w'.
Proof.
  rewrite /login_required /log_view_access /require_role /login_required.
  destruct (is_authenticated (user request)); [|by left]. cbv beta zeta.
  destruct (existsb _ roles) eqn:Hperm; simpl; [|by left].
  right. eexists. split; [|split; [done|split; [|done]]]; [done|].
  by apply has_permission_iff.
Qed.

Lemma save_pedido_nuevo_un_activo d (m : Mesa) :
  un_activo_por_mesa d → pedido_activo m d = false →
  un_activo_por_mesa
    (save_pedido (mkPedido (next_pedido_pk d) (numero m) "pendiente"
                    (VInt 0) (VInt 0) (VInt 0)) d).
Proof.
  intros Hinv Hlibre. apply bool_decide_eq_false in Hlibre.
  assert (∀ k p, pedidos d !! k = Some p → mesa p = numero m → ¬ activo p) as Hnone.
  { intros k p Hk Hm Hact. apply Hlibre. by exists k, p. }
  pose proof (next_pedido_pk_fresh d) as Hfresh.
  intros k1 k2 p1 p2. rewrite /save_pedido /=.
  destruct (decide (k1 = next_pedido_pk d)) as [->|H1];
    destruct (decide (k2 = next_pedido_pk d)) as [->|H2]; simplify_map_eq; try done.
  - intros [= <-] Hp2 Hm _ Hact. by destruct (Hnone k2 p2 Hp2 (eq_sym Hm)).
  - intros Hp1 [= <-] Hm Hact _. by destruct (Hnone k1 p1 Hp1 Hm).
  - apply Hinv.
Qed.

(** X22.  [crear_pedido] keeps the rule that no table has two orders
    that occupy it (status [pendiente], [en_preparacion] or [listo]):
    whatever the request, if the rule holds before it holds after; and the
    orders, dishes and line items that were stored before are stored
    unchanged after. *)
Theorem crear_pedido_keeps_one_active (mesas : Mesas) mesa_id data_mesa ahora request w :
  un_activo_por_mesa (db w) →
  let out := crear_pedido mesas mesa_id data_mesa ahora request w in
  un_activo_por_mesa (db (despues out))
  ∧ (∀ k p, pedidos (db w) !! k = Some p → pedidos (db (despues out)) !! k = Some p)
  ∧ platillos (db (despues out)) = platillos (db w)
  ∧ items (db (despues out)) = items (db w).
Proof.
  intros Hinv out. rewrite /out /crear_pedido.
  destruct (protegida_casos ["mesero"; "admin"] "crear_pedido" "crear_pedido"
              (crear_pedido_body mesas mesa_id data_mesa ahora) request w)
    as [->|(w' & Hdb & _ & _ & ->)]; [done|].
  destruct (crear_pedido_body_spec mesas mesa_id data_mesa ahora request w')
    as [->|(m & Hlibre & ->)]; rewrite Hdb //.
  rewrite Hdb in Hlibre. split; [by apply save_pedido_nuevo_un_activo|].
  split; [|done]. intros k' p Hk'. rewrite /save_pedido /= lookup_insert_ne //.
  intros <-. by rewrite next_pedido_pk_fresh in Hk'.
Qed.

Lemma crear_pedido_keeps_one_active_witness :
  un_activo_por_mesa (db mundo_mesa_3)
  ∧ let out := crear_pedido dos_mesas None (Some 2) 0 (pide_mesa "POST") mundo_mesa_3 in
    un_activo_por_mesa (db (despues out))
    ∧ (∀ k p, pedidos (db mundo_mesa_3) !! k = Some p →
              pedidos (db (despues out)) !! k = Some p)
    ∧ platillos (db (despues out)) = platillos (db mundo_mesa_3)
    ∧ items (db (despues out)) = items (db mundo_mesa_3).
Proof.
  assert (un_activo_por_mesa (db mundo_mesa_3)) as Hinv.
  { intros k1 k2 p1 p2 H1 H2 _ Ha1 Ha2.
    assert (∀ k p, pedidos (db mundo_mesa_3) !! k = Some p → activo p → k = 8) as Hocho.
    { intros k p Hk Ha. rewrite /mundo_mesa_3 /db_mesa_3 /= in Hk.
      destruct (decide (k = 7)) as [->|]; [|destruct (decide (k = 8)) as [->|]];
        simplify_map_eq; [|done].
      exfalso. clear -Ha. rewrite /activo /estados_activos /= in Ha.
      by repeat (apply elem_of_cons in Ha as [?|Ha]; [done|]); apply elem_of_nil in Ha. }
    by rewrite (Hocho k1 p1) // (Hocho k2 p2). }
  split; [exact Hinv|].
  exact (crear_pedido_keeps_one_active dos_mesas None (Some 2) 0 (pide_mesa "POST")
           mundo_mesa_3 Hinv).
Defined.

(** X23.  An authorised POST to [crear_pedido] that names an active
    table: when no order occupies the table, one order is stored under a
    key that was free, for that table, pending and with the three amounts
    0, everything else in the database stays, and the view redirects with
    the success message; when an order occupies the table, the form is
    shown again and the database is unchanged. *)
Theorem crear_pedido_cases (mesas : Mesas) mesa_id ahora request w k m :
  is_authenticated (user request) = true →
  (∃ role, role ∈ ["mesero"; "admin"] ∧ role ∈ groups (user request)) →
  method request = "POST" →
  is_Some (mesa_de_url mesa_id mesas) →
  mesas !! k = Some m → activa m = true →
  let out := crear_pedido mesas mesa_id (Some k) ahora request w in
  ((∀ k' p, pedidos (db w) !! k' = Some p → mesa p = numero m → ¬ activo p) →
     pedidos (db w) !! next_pedido_pk (db w) = None
     ∧ db (despues out)
       = mkDB (platillos (db w))
           (<[next_pedido_pk (db w) :=
                mkPedido (next_pedido_pk (db w)) (numero m) "pendiente"
                  (VInt 0) (VInt 0) (VInt 0)]> (pedidos (db w)))
           (items (db w))
     ∧ respuesta out = Redirect "restaurant:detalle_pedido"
     ∧ mensajes out = [(Success, "Pedido creado exitosamente")])
  ∧ ((∃ k' p, pedidos (db w) !! k' = Some p ∧ mesa p = numero m ∧ activo p) →
     db (despues out) = db w
     ∧ respuesta out = Render "restaurant/pedidos/form.html"
     ∧ mensajes out = []).
Proof.
  intros Hauth Hrole Hpost Hurl Hm Ha out.
  apply has_permission_iff in Hrole.
  assert (out = crear_pedido_body mesas mesa_id (Some k) ahora request
                  (print (mkAviso "DECORATOR" "Acceso autorizado: crear_pedido" 0)
                     (print (mkAviso "DECORATOR LOG" "crear_pedido" 0)
                        (print (mkAviso "DECORATOR LOG" "crear_pedido" 0) w))))
    as ->.
  { rewrite /out /crear_pedido /log_view_access /require_role
      /login_required Hauth. cbv beta zeta. by rewrite Hrole. }
  set (w' := print _ _).
  assert (db w' = db w) as Hdb by done.
  split.
  - intros Hlibre.
    assert (field_mesa (Some k) mesas (db w') = Ok m) as Hfield.
    { rewrite /field_mesa Hm Ha /clean_mesa /pedido_activo bool_decide_eq_false_2 //.
      intros (k' & p & Hk' & Hmesa & Hact). by apply (Hlibre k' p). }
    destruct (crear_pedido_body_ok mesas mesa_id (Some k) ahora request w' m
                Hpost Hurl Hfield) as (-> & -> & ->).
    split; [apply next_pedido_pk_fresh|done].
  - intros (k' & p & Hk' & Hmesa & Hact).
    destruct Hurl as [en_url Hurl].
    rewrite /crear_pedido_body Hurl decide_True //.
    rewrite /field_mesa Hm Ha /clean_mesa /pedido_activo bool_decide_eq_true_2 //.
    by exists k', p.
Qed.

Lemma crear_pedido_cases_witness :
  is_authenticated (user (pide_mesa "POST")) = true
  ∧ (∃ role, role ∈ ["mesero"; "admin"] ∧ role ∈ groups (user (pide_mesa "POST")))
  ∧ method (pide_mesa "POST") = "POST"
  ∧ is_Some (mesa_de_url None dos_mesas)
  ∧ dos_mesas !! 1 = Some (mkMesa 3 4 "Terraza" true)
  ∧ activa (mkMesa 3 4 "Terraza" true) = true
  ∧ let out := crear_pedido dos_mesas None (Some 1) 0 (pide_mesa "POST") mundo_mesa_3 in
    ((∀ k' p, pedidos (db mundo_mesa_3) !! k' = Some p →
              mesa p = numero (mkMesa 3 4 "Terraza" true) → ¬ activo p) →
       pedidos (db mundo_mesa_3) !! next_pedido_pk (db mundo_mesa_3) = None
       ∧ db (despues out)
         = mkDB (platillos (db mundo_mesa_3))
             (<[next_pedido_pk (db mundo_mesa_3) :=
                  mkPedido (next_pedido_pk (db mundo_mesa_3))
                    (numero (mkMesa 3 4 "Terraza" true)) "pendiente"
                    (VInt 0) (VInt 0) (VInt 0)]> (pedidos (db mundo_mesa_3)))
             (items (db mundo_mesa_3))
       ∧ respuesta out = Redirect "restaurant:detalle_pedido"
       ∧ mensajes out = [(Success, "Pedido creado exitosamente")])
    ∧ ((∃ k' p, pedidos (db mundo_mesa_3) !! k' = Some p
                ∧ mesa p = numero (mkMesa 3 4 "Terraza" true) ∧ activo p) →
       db (despues out) = db mundo_mesa_3
       ∧ respuesta out = Render "restaurant/pedidos/form.html"
       ∧ mensajes out = []).
Proof.
  assert (∃ role, role ∈ ["mesero"; "admin"]
                  ∧ role ∈ groups (user (pide_mesa "POST"))) as Hrole.
  { exists "mesero". split; by apply (bool_decide_unpack _). }
  assert (is_Some (mesa_de_url None dos_mesas)) as Hurl by (eexists; reflexivity).
  split; [reflexivity|]. split; [exact Hrole|]. split; [reflexivity|].
  split; [exact Hurl|]. split; [reflexivity|]. split; [reflexivity|].
  exact (crear_pedido_cases dos_mesas None 0 (pide_mesa "POST") mundo_mesa_3 1
           (mkMesa 3 4 "Terraza" true) eq_refl Hrole eq_refl Hurl eq_refl eq_refl).
Defined.

(** Table 3 is occupied by order 8, table 5 is free: the first request is
    turned down, the second stores order 9. *)
Example crear_pedido_ejemplo :
  let ocupada := crear_pedido dos_mesas None (Some 1) 0 (pide_mesa "POST") mundo_mesa_3 in
  let libre := crear_pedido dos_mesas None (Some 2) 0 (pide_mesa "POST") mundo_mesa_3 in
  respuesta ocupada = Render "restaurant/pedidos/form.html"
  ∧ db (despues ocupada) = db_mesa_3
  ∧ respuesta libre = Redirect "restaurant:detalle_pedido"
  ∧ pedidos (db (despues libre)) !! 9
    = Some (mkPedido 9 5 "pendiente" (VInt 0) (VInt 0) (VInt 0)).
Proof. by vm_compute. Qed.

(** [cambiar_estado_pedido] on an authorised POST with a valid target. *)
Lemma cambiar_estado_pedido_db un_pk ahora request w pedido t :
  is_authenticated (user request) = true →
  (∃ role, role ∈ ["mesero"; "admin"; "cocina"] ∧ role ∈ groups (user request)) →
  method request = "POST" →
  pedidos (db w) !! un_pk = Some pedido →
  POST_estado request = Some t → t ∈ ESTADOS.*1 →
  db (despues (cambiar_estado_pedido un_pk ahora request w))
  = save_pedido (with_estado t pedido) (db w).
Proof.
  intros Hauth Hrole Hpost Hped Ht Hin.
  apply has_permission_iff in Hrole.
  assert (cambiar_estado_pedido un_pk ahora request w
          = cambiar_estado_pedido_body un_pk ahora request
              (print (mkAviso "DECORATOR" "Acceso autorizado: cambiar_estado_pedido" 0)
                 (print (mkAviso "DECORATOR LOG" "cambiar_estado_pedido" 0)
                    (print (mkAviso "DECORATOR LOG" "cambiar_estado_pedido" 0) w))))
    as ->.
  { rewrite /cambiar_estado_pedido /log_view_access /require_role
      /login_required Hauth. cbv beta zeta. by rewrite Hrole. }
  rewrite /cambiar_estado_pedido_body Hped.
  case_decide; [|done]. rewrite Ht /estado_valido bool_decide_eq_true_2 //.
  rewrite /nuevo_subject.
  set (w0 := log _ _ _).
  destruct (agregar_observador_keeps (mkObservador 1 CocinaObserver)
              (mkSubject pedido []) w0) as [Hp1 Hd1].
  destruct (agregar_observador _ (mkSubject pedido []) w0) as [s1 w1].
  destruct (agregar_observador_keeps (mkObservador 2 MeseroObserver) s1 w1)
    as [Hp2 Hd2].
  destruct (agregar_observador _ s1 w1) as [s2 w2].
  destruct (agregar_observador_keeps (mkObservador 3 AdministradorObserver) s2 w2)
    as [Hp3 Hd3].
  destruct (agregar_observador _ s2 w2) as [s3 w3].
  simpl in Hp1, Hd1, Hp2, Hd2, Hp3, Hd3.
  destruct (cambiar_estado_saves s3 t (Some (username (user request))) ahora w3)
    as [Hres Hdb].
  destruct (cambiar_estado t _ ahora s3 w3) as [s4 r]. simpl in Hres, Hdb.
  by rewrite Hres /= Hdb Hd3 Hd2 Hd1 Hp3 Hp2 Hp1.
Qed.

(** X24.  [cambiar_estado_pedido] does not look at the other orders of
    the table: when an order is moved to a status that occupies its table
    while another order already occupies that table, the table ends up with
    two such orders, the situation [PedidoForm.clean_mesa] refuses to
    create. *)
Theorem cambiar_estado_pedido_duplicates un_pk ahora request w pedido otro_pk otro t :
  is_authenticated (user request) = true →
  (∃ role, role ∈ ["mesero"; "admin"; "cocina"] ∧ role ∈ groups (user request)) →
  method request = "POST" →
  pedidos (db w) !! un_pk = Some pedido → pk pedido = un_pk →
  pedidos (db w) !! otro_pk = Some otro → otro_pk ≠ un_pk →
  mesa otro = mesa pedido → activo otro →
  POST_estado request = Some t → t ∈ estados_activos →
  ¬ un_activo_por_mesa (db (despues (cambiar_estado_pedido un_pk ahora request w))).
Proof.
  intros Hauth Hrole Hpost Hped Hpk Hotro Hne Hmesa Hact Ht Hin Hinv.
  assert (t ∈ ESTADOS.*1) as Hvalid.
  { rewrite ESTADOS_keys. rewrite /estados_activos in Hin.
    repeat (apply elem_of_cons in Hin as [->|Hin]; [by apply (bool_decide_unpack _)|]).
    by apply elem_of_nil in Hin. }
  rewrite (cambiar_estado_pedido_db un_pk ahora request w pedido t) // in Hinv.
  apply Hne. apply (Hinv otro_pk un_pk otro (with_estado t pedido)); try done.
  - rewrite /save_pedido /= Hpk. by simplify_map_eq.
  - rewrite /save_pedido /= Hpk. by simplify_map_eq.
Qed.

Lemma cambiar_estado_pedido_duplicates_witness :
  is_authenticated (user pide_pendiente) = true
  ∧ (∃ role, role ∈ ["mesero"; "admin"; "cocina"] ∧ role ∈ groups (user pide_pendiente))
  ∧ method pide_pendiente = "POST"
  ∧ pedidos (db mundo_mesa_3) !! 7
    = Some (mkPedido 7 3 "entregado" (VInt 0) (VInt 0) (VInt 0))
  ∧ pk (mkPedido 7 3 "entregado" (VInt 0) (VInt 0) (VInt 0)) = 7
  ∧ pedidos (db mundo_mesa_3) !! 8
    = Some (mkPedido 8 3 "pendiente" (VInt 0) (VInt 0) (VInt 0))
  ∧ (8 : Z) ≠ 7
  ∧ mesa (mkPedido 8 3 "pendiente" (VInt 0) (VInt 0) (VInt 0))
    = mesa (mkPedido 7 3 "entregado" (VInt 0) (VInt 0) (VInt 0))
  ∧ activo (mkPedido 8 3 "pendiente" (VInt 0) (VInt 0) (VInt 0))
  ∧ POST_estado pide_pendiente = Some "pendiente"
  ∧ "pendiente" ∈ estados_activos
  ∧ ¬ un_activo_por_mesa
        (db (despues (cambiar_estado_pedido 7 0 pide_pendiente mundo_mesa_3))).
Proof.
  assert (∃ role, role ∈ ["mesero"; "admin"; "cocina"]
                  ∧ role ∈ groups (user pide_pendiente)) as Hrole.
  { exists "mesero". split; by apply (bool_decide_unpack _). }
  assert ((8 : Z) ≠ 7) as Hne by lia.
  assert (activo (mkPedido 8 3 "pendiente" (VInt 0) (VInt 0) (VInt 0))) as Hact
    by by apply (bool_decide_unpack _).
  assert ("pendiente" ∈ estados_activos) as Hin by by apply (bool_decide_unpack _).
  split; [reflexivity|]. split; [exact Hrole|]. split; [reflexivity|].
  split; [reflexivity|]. split; [reflexivity|]. split; [reflexivity|].
  split; [exact Hne|]. split; [reflexivity|]. split; [exact Hact|].
  split; [reflexivity|]. split; [exact Hin|].
  exact (cambiar_estado_pedido_duplicates 7 0 pide_pendiente mundo_mesa_3 _ 8 _ "pendiente"
           eq_refl Hrole eq_refl eq_refl eq_refl eq_refl Hne eq_refl Hact eq_refl Hin).
Defined.

End VistaCrearProps.

(* ===================================================================== *)
(** * Further properties of the models                                     *)
(* ===================================================================== *)

Section ModelsMoreProps.
Import Py Models Escenarios.













End ModelsMoreProps.

(* ===================================================================== *)
(** * The view that adds a line item, from request to response           *)
(* ===================================================================== *)

Section AgregarItemProps.
Import Py Models Observers Forms Views Escenarios.










End AgregarItemProps.
